(** * parse-torrent-title: the handler engine and the title sanitizer

    A shallow embedding of [src/parser.js] and the properties of its
    handler pipeline.

    Conventions of the embedding.
    - A JavaScript string is the list of its UTF-16 code units
      ([JsString := list N]); numbers that the code uses as offsets are in
      [Z], because the title end boundary can leave the natural numbers; a
      start index that may be [undefined] is an [option Z].
    - The object [result] is its own properties and its prototype: reads
      fall back on the prototype ([Object.prototype] for [{}]) and the
      assignment to [__proto__] goes through the accessor.  The [matched]
      registry is its own properties, read over [Object.prototype].  A
      handler receives the two and hands back the (possibly updated) ones,
      which is how the shared mutable context is threaded.
    - A handler is an arbitrary function and may throw: it returns in [Res].
      So does a transformer.
    - A regular expression given to [addHandler] is known to the parser only
      through [String.prototype.match]; it is represented by that function,
      whose result has no [index] when the expression carries the [g] flag.
      The expressions that the source itself contains are written in a small
      regular-expression syntax and run by a backtracking matcher with the
      priorities of the JavaScript one. *)

From Stdlib Require Import ZArith Lia Ascii String Sorted.
From stdpp Require Import base option list gmap fin_maps.

Local Open Scope Z_scope.

(* ===================================================================== *)
(** * JavaScript values and strings                                       *)
(* ===================================================================== *)

Module Js.

Abbreviation JsString := (list N).

(** Code units of an ASCII literal. *)
Definition str (s : string) : JsString :=
  List.map N_of_ascii (list_ascii_of_string s).

Definition chr (a : ascii) : N := N_of_ascii a.
Arguments chr a%_char.

(** The values that a transformer returns and that the result map holds;
    numbers are kept to the integers.  An object of the caller (an array, a
    date, a record) is its reference and what reading each of its properties
    gives, own or inherited; it is an ordinary object, whose properties are
    writable values and whose prototypes end at [Object.prototype].  A
    built-in object of the realm is named. *)
Inductive Value :=
| VUndefined
| VNull
| VBool (b : bool)
| VNum (n : Z)
| VStr (s : JsString)
| VObject (ref : N) (read : JsString -> Value)
| VIntrinsic (name : JsString).   (* [Object.prototype], one of its functions *)

(** ToBoolean. *)
Definition truthy (v : Value) : bool :=
  match v with
  | VUndefined | VNull => false
  | VBool b => b
  | VNum n => negb (n =? 0)
  | VStr s => match s with [] => false | _ => true end
  | VObject _ _ | VIntrinsic _ => true
  end.

(** Type(v) is Object. *)
Definition is_object (v : Value) : bool :=
  match v with
  | VObject _ _ | VIntrinsic _ => true
  | _ => false
  end.

Definition is_null (v : Value) : bool :=
  match v with
  | VNull => true
  | _ => false
  end.

(** [a < b] for two start indices, each a number or [undefined]: with
    [undefined] on either side the comparison is false. *)
Definition lt_index (a b : option Z) : bool :=
  match a, b with
  | Some x, Some y => x <? y
  | _, _ => false
  end.

(** [a || b] *)
Definition or_else (a b : Value) : Value := if truthy a then a else b.

Definition nonempty (s : JsString) : bool :=
  match s with [] => false | _ => true end.

Definition len (s : JsString) : Z := Z.of_nat (length s).

(** [String.prototype.slice]: a negative offset counts from the end, and
    both offsets are clamped to the string. *)
Definition clamp (n : Z) (i : Z) : Z :=
  if i <? 0 then Z.max (n + i) 0 else Z.min i n.

Definition slice (s : JsString) (start stop : Z) : JsString :=
  let from := clamp (len s) start in
  let to := clamp (len s) stop in
  take (Z.to_nat (to - from)) (drop (Z.to_nat from) s).

(** [s.slice(start)] *)
Definition slice_from (s : JsString) (start : Z) : JsString :=
  drop (Z.to_nat (clamp (len s) start)) s.

Fixpoint starts_with (needle s : JsString) : bool :=
  match needle, s with
  | [], _ => true
  | _ :: _, [] => false
  | a :: needle', b :: s' => (a =? b)%N && starts_with needle' s'
  end.

(** [s.indexOf(needle)], counted from [i]. *)
Fixpoint indexOf_from (i : Z) (needle s : JsString) : Z :=
  if starts_with needle s then i
  else match s with
       | [] => -1
       | _ :: s' => indexOf_from (i + 1) needle s'
       end.

Definition indexOf (s needle : JsString) : Z := indexOf_from 0 needle s.

Definition includes (s needle : JsString) : bool :=
  negb (indexOf s needle =? -1).

(** WhiteSpace and LineTerminator code units, as [trim] strips them. *)
Definition is_line_terminator (c : N) : bool :=
  ((c =? 10) || (c =? 13) || (c =? 0x2028) || (c =? 0x2029))%N.

Definition is_white_space (c : N) : bool :=
  ((c =? 9) || (c =? 11) || (c =? 12) || (c =? 32) || (c =? 160)
   || (c =? 0x1680) || ((0x2000 <=? c) && (c <=? 0x200A))
   || (c =? 0x202F) || (c =? 0x205F) || (c =? 0x3000) || (c =? 0xFEFF))%N.

Definition strippable (c : N) : bool :=
  is_white_space c || is_line_terminator c.

Fixpoint trim_start (s : JsString) : JsString :=
  match s with
  | c :: s' => if strippable c then trim_start s' else s
  | [] => []
  end.

Definition trim_end (s : JsString) : JsString :=
  rev (trim_start (rev s)).

Definition trim (s : JsString) : JsString := trim_end (trim_start s).

End Js.
Import Js.

(* ===================================================================== *)
(** * Regular expressions of the source                                   *)
(* ===================================================================== *)

Module RegExpSyntax.

(** Members of a character class. *)
Inductive ClassItem :=
| one (c : N)
| range (lo hi : N)
| word.                      (* \w *)

Definition is_word_char (c : N) : bool :=
  ((48 <=? c) && (c <=? 57) || (65 <=? c) && (c <=? 90)
   || (97 <=? c) && (c <=? 122) || (c =? 95))%N.

Definition in_item (c : N) (i : ClassItem) : bool :=
  match i with
  | one d => (c =? d)%N
  | range lo hi => ((lo <=? c) && (c <=? hi))%N
  | word => is_word_char c
  end.

Definition in_class (items : list ClassItem) (c : N) : bool :=
  existsb (in_item c) items.

(** Canonicalize of a case-insensitive expression, for ASCII letters. *)
Definition upper (c : N) : N :=
  if ((97 <=? c) && (c <=? 122))%N then (c - 32)%N else c.

Inductive Regex :=
| Empty
| Lit (c : N)                        (* a literal character *)
| LitI (c : N)                       (* the same under the [i] flag *)
| Dot                                (* [.] *)
| Class (items : list ClassItem)     (* [[...]] *)
| NotClass (items : list ClassItem)  (* [[^...]] *)
| Seq (r1 r2 : Regex)
| Alt (r1 r2 : Regex)                (* [r1|r2] *)
| Star (r : Regex)                   (* [r*], greedy *)
| Bol                                (* [^] *)
| Eol                                (* [$] *)
| Group (r : Regex)                  (* the capturing group [$1] *)
| LookAhead (r : Regex)              (* [(?=r)] *)
| LookBehind (r : Regex).            (* [(?<=r)] *)

Definition Plus (r : Regex) : Regex := Seq r (Star r).
Definition Opt (r : Regex) : Regex := Alt r Empty.

Fixpoint Lits (s : JsString) : Regex :=
  match s with
  | [] => Empty
  | [c] => Lit c
  | c :: s' => Seq (Lit c) (Lits s')
  end.

Fixpoint LitsI (s : JsString) : Regex :=
  match s with
  | [] => Empty
  | [c] => LitI c
  | c :: s' => Seq (LitI c) (LitsI s')
  end.

Definition accepts_char (r : Regex) (c : N) : bool :=
  match r with
  | Lit d => (c =? d)%N
  | LitI d => (upper c =? upper d)%N
  | Dot => negb (is_line_terminator c)
  | Class items => in_class items c
  | NotClass items => negb (in_class items c)
  | _ => false
  end.

(** A position of the matcher inside the subject: the text before it
    (nearest character first), the text after it, and the capture. *)
Record MState := mkMState {
  before : JsString;
  after : JsString;
  group1 : option JsString
}.

Definition consumed (s s' : MState) : JsString :=
  take (length (after s) - length (after s')) (after s).

Definition step_back (j : nat) (s : MState) : MState :=
  {| before := drop j (before s);
     after := rev (take j (before s)) ++ after s;
     group1 := group1 s |}.

(** The backtracking matcher in continuation-passing style: [k] is what
    remains to be matched, and the first alternative that lets [k] succeed
    wins.  An iteration of a star must consume a character. *)
Fixpoint rmatch (r : Regex) {A : Type} (s : MState)
    (k : MState -> option A) {struct r} : option A :=
  match r with
  | Empty => k s
  | Lit _ | LitI _ | Dot | Class _ | NotClass _ =>
      match after s with
      | c :: rest =>
          if accepts_char r c
          then k {| before := c :: before s; after := rest; group1 := group1 s |}
          else None
      | [] => None
      end
  | Seq r1 r2 => rmatch r1 s (fun s1 => rmatch r2 s1 k)
  | Alt r1 r2 =>
      match rmatch r1 s k with
      | Some x => Some x
      | None => rmatch r2 s k
      end
  | Star r1 =>
      (fix loop (n : nat) (s : MState) {struct n} : option A :=
         match n with
         | O => k s
         | S n' =>
             match rmatch r1 s (fun s1 =>
                     if (length (after s1) <? length (after s))%nat
                     then loop n' s1 else None) with
             | Some x => Some x
             | None => k s
             end
         end) (length (after s)) s
  | Bol => match before s with [] => k s | _ :: _ => None end
  | Eol => match after s with [] => k s | _ :: _ => None end
  | Group r1 =>
      rmatch r1 s (fun s1 =>
        k {| before := before s1; after := after s1;
             group1 := Some (consumed s s1) |})
  | LookAhead r1 =>
      match rmatch r1 s (fun _ => Some tt) with
      | Some _ => k s
      | None => None
      end
  | LookBehind r1 =>
      if existsb (fun j =>
           match rmatch r1 (step_back j s) (fun s1 =>
                   if (length (after s1) =? length (after s))%nat
                   then Some tt else None) with
           | Some _ => true
           | None => false
           end) (seq 0 (S (length (before s))))
      then k s else None
  end.

(** The first match at or after the position, as the pair of the state
    where it starts and the state where it ends. *)
Fixpoint search (r : Regex) (left right : JsString) {struct right}
  : option (MState * MState) :=
  let s := {| before := left; after := right; group1 := None |} in
  match rmatch r s (fun s1 => Some s1) with
  | Some s1 => Some (s, s1)
  | None =>
      match right with
      | [] => None
      | c :: right' => search r (c :: left) right'
      end
  end.

(** The array that [RegExp.prototype.exec] and [String.prototype.match]
    return: its first two elements and its [index] property, which the
    array of an expression with the [g] flag does not have. *)
Record RegExpMatch := mkRegExpMatch {
  index : option nat;
  match_0 : JsString;                 (* match[0] *)
  match_1 : option JsString           (* match[1], when there is one *)
}.

(** [r.exec(s)], and [s.match(r)] for an expression without the [g]
    flag. *)
Definition exec (r : Regex) (s : JsString) : option RegExpMatch :=
  match search r [] s with
  | Some (s0, s1) =>
      Some {| index := Some (length (before s0));
              match_0 := consumed s0 s1;
              match_1 := group1 s1 |}
  | None => None
  end.

(** The texts of all the matches in turn, the search resuming where the
    previous match ended (one character further after an empty match). *)
Fixpoint matches_from (fuel : nat) (r : Regex) (left right : JsString)
  : list JsString :=
  match fuel with
  | O => []
  | S fuel' =>
      match search r left right with
      | None => []
      | Some (s0, s1) =>
          if (length (after s1) <? length (after s0))%nat
          then consumed s0 s1 :: matches_from fuel' r (before s1) (after s1)
          else match after s1 with
               | [] => [consumed s0 s1]
               | c :: rest =>
                   consumed s0 s1 :: matches_from fuel' r (c :: before s1) rest
               end
      end
  end.

(** [s.match(r)] for an expression with the [g] flag: [null] without a
    match, else the array of the matched texts, which has no [index] and
    whose second element is the second match. *)
Definition match_all (r : Regex) (s : JsString) : option RegExpMatch :=
  match matches_from (S (length s)) r [] s with
  | [] => None
  | first :: others =>
      Some {| index := None; match_0 := first; match_1 := head others |}
  end.

(** Replacement patterns used by the source: a literal, or [$1]. *)
Inductive Replacement :=
| RLit (s : JsString)
| RGroup1.

Definition expand (rep : Replacement) (s1 : MState) : JsString :=
  match rep with
  | RLit s => s
  | RGroup1 => match group1 s1 with Some g => g | None => [] end
  end.

(** [s.replace(r, rep)] for an expression without the [g] flag. *)
Definition replace (r : Regex) (rep : Replacement) (s : JsString) : JsString :=
  match search r [] s with
  | Some (s0, s1) => rev (before s0) ++ expand rep s1 ++ after s1
  | None => s
  end.

(** [s.replace(r, rep)] for an expression with the [g] flag: every match
    in turn, the search resuming where the previous match ended (one
    character further after an empty match). *)
Fixpoint replace_all_from (fuel : nat) (r : Regex) (rep : Replacement)
    (left right : JsString) : JsString :=
  match fuel with
  | O => right
  | S fuel' =>
      match search r left right with
      | None => right
      | Some (s0, s1) =>
          let skipped := take (length right - length (after s0)) right in
          if (length (after s1) <? length (after s0))%nat
          then skipped ++ expand rep s1
                 ++ replace_all_from fuel' r rep (before s1) (after s1)
          else match after s1 with
               | [] => skipped ++ expand rep s1
               | c :: rest =>
                   skipped ++ expand rep s1 ++ c ::
                     replace_all_from fuel' r rep (c :: before s1) rest
               end
      end
  end.

Definition replace_all (r : Regex) (rep : Replacement) (s : JsString) : JsString :=
  replace_all_from (S (length s)) r rep [] s.

End RegExpSyntax.
Import RegExpSyntax.

(* ===================================================================== *)
(** * parser.js                                                           *)
(* ===================================================================== *)

Inductive Exception :=
| ConfigurationError (typeof_handler : JsString)
| TypeError                      (* raised by the engine, as for [null.some] *)
| Thrown (v : Value).            (* raised by the caller's code *)

Inductive Res (A : Type) :=
| Ok (a : A)
| Throw (e : Exception).
Arguments Ok {A} a.
Arguments Throw {A} e.

#[global] Instance Res_ret : MRet Res := @Ok.
#[global] Instance Res_bind : MBind Res := fun A B f c =>
  match c with
  | Ok a => f a
  | Throw e => Throw e
  end.

(** ** Constants *)

Definition NON_ENGLISH_CHARS : list ClassItem :=
  [ range 0x3040 0x30ff; range 0x3400 0x4dbf; range 0x4e00 0x9fff;
    range 0xf900 0xfaff; range 0xff66 0xff9f; range 0x0400 0x04ff ].

Fixpoint Cat (rs : list Regex) : Regex :=
  match rs with
  | [] => Empty
  | [r] => r
  | r :: rs' => Seq r (Cat rs')
  end.

Definition RUSSIAN_CAST_REGEX : Regex :=
  Alt (Cat [ Lit (chr "("); Star (NotClass [one (chr ")")]);
             Class [range 0x0400 0x04ff];
             Star (NotClass [one (chr ")")]); Lit (chr ")"); Eol ])
      (Cat [ LookBehind (Seq (Lit (chr "/")) (Star Dot));
             Lit (chr "("); Star Dot; Lit (chr ")"); Eol ]).

Definition ALT_TITLES_REGEX : Regex :=
  Alt (Cat [ Star (NotClass [one (chr "/"); one (chr "|"); one (chr "(")]);
             Class NON_ENGLISH_CHARS;
             Star (NotClass [one (chr "/"); one (chr "|")]);
             Class [one (chr "/"); one (chr "|")] ])
      (Cat [ Class [one (chr "/"); one (chr "|")];
             Star (NotClass [one (chr "/"); one (chr "|"); one (chr "(")]);
             Class NON_ENGLISH_CHARS;
             Star (NotClass [one (chr "/"); one (chr "|")]) ]).

Definition LETTERS : list ClassItem :=
  [ range (chr "a") (chr "z"); range (chr "A") (chr "Z") ].

Definition NOT_ONLY_NON_ENGLISH_REGEX : Regex :=
  Alt (Cat [ LookBehind (Seq (Class LETTERS) (Plus (NotClass NON_ENGLISH_CHARS)));
             Class NON_ENGLISH_CHARS; Star Dot; Class NON_ENGLISH_CHARS ])
      (Cat [ Class NON_ENGLISH_CHARS; Star Dot; Class NON_ENGLISH_CHARS;
             LookAhead (Seq (Plus (NotClass NON_ENGLISH_CHARS)) (Class LETTERS)) ]).

(** U+3010, U+3011 and U+2605 are the lenticular brackets and the star. *)
Definition OPENING_MARKS : list ClassItem := [ one (chr "["); one 0x3010; one 0x2605 ].
Definition CLOSING_MARKS : list ClassItem := [ one (chr "]"); one 0x3011; one 0x2605 ].

Definition NOT_ALLOWED_SYMBOLS_AT_START_AND_END : Regex :=
  Alt (Seq Bol (Plus (NotClass (word :: NON_ENGLISH_CHARS
                                 ++ one (chr "#") :: OPENING_MARKS))))
      (Seq (Plus (Class [ one (chr " "); one (chr "-"); one (chr ":");
                          one (chr "/"); one (chr "\"); one (chr "[");
                          one (chr "|"); one (chr "{"); one (chr "(");
                          one (chr "#"); one (chr "$"); one (chr "&");
                          one (chr "^") ]))
           Eol).

Definition REMAINING_NOT_ALLOWED_SYMBOLS_AT_START_AND_END : Regex :=
  Alt (Seq Bol (Plus (NotClass (word :: NON_ENGLISH_CHARS ++ [one (chr "#")]))))
      (Seq (Plus (Class [ one (chr "["); one (chr "]"); one (chr "(");
                          one (chr "{"); one (chr "}"); one (chr " ") ]))
           Eol).

(** The options of a pattern handler.  A flag stands for the truthiness of
    what the caller wrote, the only thing the code tests of it.
    [skipIfBefore] is the list of the names in the array, or [None] for a
    value that has no [some] method ([null], [undefined], a number). *)
Module Options.
Record t := mk {
  skipIfAlreadyFound : bool;
  skipFromTitle : bool;
  skipIfFirst : bool;
  skipIfBefore : option (list JsString);
  remove : bool;
  value : Value                (* [VUndefined] when the key is absent *)
}.

(** The record a caller writes: any key may be left out. *)
Record partial := mkPartial {
  p_skipIfAlreadyFound : option bool;
  p_skipFromTitle : option bool;
  p_skipIfFirst : option bool;
  p_skipIfBefore : option (option (list JsString));
  p_remove : option bool;
  p_value : option Value
}.
End Options.

Definition DEFAULT_OPTIONS : Options.t :=
  {| Options.skipIfAlreadyFound := true;
     Options.skipFromTitle := false;
     Options.skipIfFirst := false;
     Options.skipIfBefore := Some [];
     Options.remove := false;
     Options.value := VUndefined |}.

(** [{ ...DEFAULT_OPTIONS, ...options }]: a key that the caller wrote
    replaces the default, whatever it holds; spreading [undefined] adds
    nothing. *)
Definition extendOptions (options : option Options.partial) : Options.t :=
  match options with
  | None => DEFAULT_OPTIONS
  | Some o =>
      {| Options.skipIfAlreadyFound :=
           default (Options.skipIfAlreadyFound DEFAULT_OPTIONS) (Options.p_skipIfAlreadyFound o);
         Options.skipFromTitle :=
           default (Options.skipFromTitle DEFAULT_OPTIONS) (Options.p_skipFromTitle o);
         Options.skipIfFirst :=
           default (Options.skipIfFirst DEFAULT_OPTIONS) (Options.p_skipIfFirst o);
         Options.skipIfBefore :=
           default (Options.skipIfBefore DEFAULT_OPTIONS) (Options.p_skipIfBefore o);
         Options.remove :=
           default (Options.remove DEFAULT_OPTIONS) (Options.p_remove o);
         Options.value :=
           default (Options.value DEFAULT_OPTIONS) (Options.p_value o) |}
  end.

(** ** The objects [result] and [matched] *)

(** The string-keyed properties of [Object.prototype] besides the accessor
    [__proto__]; each holds a function. *)
Definition OBJECT_PROTOTYPE_FUNCTIONS : list JsString :=
  [ str "constructor"; str "hasOwnProperty"; str "isPrototypeOf";
    str "propertyIsEnumerable"; str "toLocaleString"; str "toString";
    str "valueOf"; str "__defineGetter__"; str "__defineSetter__";
    str "__lookupGetter__"; str "__lookupSetter__" ].

Definition Object_prototype : Value := VIntrinsic (str "Object.prototype").

(** [object[name]] for an object at hand as a value, [name] not being
    [__proto__]: what the caller's object gives, or the function that
    [Object.prototype] holds.  The properties of those functions themselves
    are left out. *)
Definition property (object : Value) (name : JsString) : Value :=
  match object with
  | VObject _ read => read name
  | VIntrinsic intrinsic =>
      if bool_decide (intrinsic = str "Object.prototype")
         && bool_decide (name ∈ OBJECT_PROTOTYPE_FUNCTIONS)
      then VIntrinsic (intrinsic ++ str "." ++ name)
      else VUndefined
  | _ => VUndefined
  end.

(** An ordinary object whose own properties were all made by assignment:
    these, and its prototype ([null] when it has none). *)
Record Obj := mkObj {
  own : gmap JsString Value;
  proto : Value
}.

(** [{}] *)
Definition empty_object : Obj := {| own := ∅; proto := Object_prototype |}.

(** [object[name]]: the own property, else what the prototype gives.  A
    prototype other than [null] inherits from [Object.prototype], whose
    accessor [__proto__] reads the prototype of the object. *)
Definition get (object : Obj) (name : JsString) : Value :=
  match own object !! name with
  | Some v => v
  | None =>
      if is_object (proto object)
      then if bool_decide (name = str "__proto__")
           then proto object
           else property (proto object) name
      else VUndefined
  end.

(** [object[name] = v]: an own property is updated; one that is inherited
    (a writable data property) is shadowed by a new own property; the
    inherited accessor [__proto__] makes an object or [null] the prototype
    and ignores any other value. *)
Definition set (object : Obj) (name : JsString) (v : Value) : Obj :=
  match own object !! name with
  | Some _ => {| own := <[ name := v ]> (own object); proto := proto object |}
  | None =>
      if bool_decide (name = str "__proto__") && is_object (proto object)
      then if is_object v || is_null v
           then {| own := own object; proto := v |}
           else object
      else {| own := <[ name := v ]> (own object); proto := proto object |}
  end.

(** What the [matched] registry holds under a name: the record of a match,
    or what [Object.prototype] gives under that name (a function, or for
    [__proto__] the prototype itself), which has no [matchIndex]. *)
Module Matched.
Inductive entry :=
| mk (rawMatch : JsString) (matchIndex : option Z)
| inherited (name : JsString).

(** [entry.matchIndex] *)
Definition matchIndex (e : entry) : option Z :=
  match e with
  | mk _ i => i
  | inherited _ => None
  end.
End Matched.

(** What a handler returns when it does not return [null]. *)
Module MatchResult.
Record t := mk {
  rawMatch : JsString;
  matchIndex : option Z;       (* [None] for [undefined] *)
  remove : bool;
  skipFromTitle : bool
}.
End MatchResult.

Abbreviation Result := Obj.

(** The own properties of [matched]; its prototype is [Object.prototype]. *)
Abbreviation MatchedMap := (gmap JsString Matched.entry).

(** [matched[name]] *)
Definition get_matched (matched : MatchedMap) (name : JsString)
  : option Matched.entry :=
  match matched !! name with
  | Some e => Some e
  | None =>
      if bool_decide (name = str "__proto__")
         || bool_decide (name ∈ OBJECT_PROTOTYPE_FUNCTIONS)
      then Some (Matched.inherited name)
      else None
  end.

(** A handler is called with [{ title, result, matched }]; it may update
    the two objects, and returns a match result or [null]. *)
Definition HandlerFn : Type :=
  JsString -> Result -> MatchedMap ->
  Res (option MatchResult.t * Result * MatchedMap).

(** [(rawValue, previousValue) => value], the caller's code. *)
Definition Transformer : Type := JsString -> Value -> Res Value.

(** What the parser sees of a regular expression: [title.match(regExp)].
    For an expression with the [y] flag it is the function at the
    [lastIndex] the expression has when the handler is called. *)
Definition RegExp : Type := JsString -> option RegExpMatch.

Definition String_match (title : JsString) (regExp : RegExp) : option RegExpMatch :=
  regExp title.

(** Modelled from the spec: [none] of [./transformers], a module that is
    not among the source files; the default transformer, a pass-through
    that returns the cleaned match unchanged. *)
Definition none : Transformer := fun input _ => Ok (VStr input).

(** [/^\[([^[\]]+)]/] *)
Definition BEFORE_TITLE_REGEX : Regex :=
  Cat [ Bol; Lit (chr "[");
        Group (Plus (NotClass [one (chr "["); one (chr "]")]));
        Lit (chr "]") ].

Inductive NameArg :=
| name_undefined
| name_string (s : JsString)
| name_function (f : HandlerFn)
| name_other.

Record Handler := mkHandler {
  call : HandlerFn;
  handlerName : NameArg
}.

(** ** createHandlerFromRegExp *)

(** [cleanMatch || rawMatch] *)
Definition cleanMatch_or_rawMatch (match_ : RegExpMatch) : JsString :=
  let cleanMatch := default [] (match_1 match_) in
  if nonempty cleanMatch then cleanMatch else match_0 match_.

(** [match.index] *)
Definition match_index (match_ : RegExpMatch) : option Z :=
  Z.of_nat <$> index match_.

(** [beforeTitleMatch && beforeTitleMatch[1].includes(rawMatch)] *)
Definition isBeforeTitle (title rawMatch : JsString) : bool :=
  match exec BEFORE_TITLE_REGEX title with
  | Some beforeTitleMatch => includes (default [] (match_1 beforeTitleMatch)) rawMatch
  | None => false
  end.

(** [Object.entries(matched).filter(e => e[0] !== name)] *)
Definition otherMatches (matched : MatchedMap) (name : JsString)
  : list (JsString * Matched.entry) :=
  List.filter (fun e => negb (bool_decide (e.1 = name))) (map_to_list matched).

Definition isSkipIfFirst (options : Options.t) (matched : MatchedMap)
    (name : JsString) (index : option Z) : bool :=
  Options.skipIfFirst options
  && negb (length (otherMatches matched name) =? 0)%nat
  && forallb (fun e => lt_index index (Matched.matchIndex e.2))
       (otherMatches matched name).

(** [options.skipIfBefore.some(...)] throws when the option has no [some]
    method. *)
Definition isSkipIfBefore (options : Options.t) (matched : MatchedMap)
    (index : option Z) : Res bool :=
  match Options.skipIfBefore options with
  | Some groups =>
      Ok (existsb (fun group =>
                     match get_matched matched group with
                     | Some e => lt_index index (Matched.matchIndex e)
                     | None => false
                     end)
                  groups)
  | None => Throw TypeError
  end.

(** [matched[name] = matched[name] || { rawMatch, matchIndex }].  What
    [matched[name]] holds, own or inherited, is an object and so truthy: it
    is assigned back, which makes an inherited function an own property and
    gives the setter of [__proto__] the prototype it already has. *)
Definition record_match (matched : MatchedMap) (name rawMatch : JsString)
    (matchIndex : option Z) : MatchedMap :=
  match matched !! name with
  | Some _ => matched
  | None =>
      match get_matched matched name with
      | Some inherited =>
          if bool_decide (name = str "__proto__")
          then matched
          else <[ name := inherited ]> matched
      | None => <[ name := Matched.mk rawMatch matchIndex ]> matched
      end
  end.

Definition createHandlerFromRegExp (name : JsString) (regExp : RegExp)
    (transformer : Transformer) (options : Options.t) : Handler :=
  let handler : HandlerFn := fun title result matched =>
    if truthy (get result name) && Options.skipIfAlreadyFound options
    then Ok (None, result, matched)
    else
      match String_match title regExp with
      | None => Ok (None, result, matched)
      | Some match_ =>
          let rawMatch := match_0 match_ in
          if nonempty rawMatch then
            transformed ←
              transformer (cleanMatch_or_rawMatch match_) (get result name);
            let isBeforeTitle := isBeforeTitle title rawMatch in
            let isSkipIfFirst :=
              isSkipIfFirst options matched name (match_index match_) in
            isSkipIfBefore ← isSkipIfBefore options matched (match_index match_);
            if truthy transformed && negb isSkipIfFirst && negb isSkipIfBefore
            then
              let matched' :=
                record_match matched name rawMatch (match_index match_) in
              let result' :=
                set result name (or_else (Options.value options) transformed) in
              Ok (Some {| MatchResult.rawMatch := rawMatch;
                          MatchResult.matchIndex := match_index match_;
                          MatchResult.remove := Options.remove options;
                          MatchResult.skipFromTitle :=
                            isBeforeTitle || Options.skipFromTitle options |},
                  result', matched')
            else Ok (None, result, matched)
          else Ok (None, result, matched)
      end
  in {| call := handler; handlerName := name_string name |}.

(** ** cleanTitle *)

Definition cleanTitle (rawTitle : JsString) : JsString :=
  let cleanedTitle := rawTitle in
  let cleanedTitle :=
    if (indexOf cleanedTitle (str " ") =? -1)
       && negb (indexOf cleanedTitle (str ".") =? -1)
    then replace_all (Lit (chr ".")) (RLit (str " ")) cleanedTitle
    else cleanedTitle in
  let cleanedTitle := replace_all (Lit (chr "_")) (RLit (str " ")) cleanedTitle in
  let cleanedTitle :=
    replace (Cat [ Class [one (chr "["); one (chr "(")]; LitsI (str "movie");
                   Class [one (chr ")"); one (chr "]")] ])
            (RLit []) cleanedTitle in
  let cleanedTitle :=
    replace_all NOT_ALLOWED_SYMBOLS_AT_START_AND_END (RLit []) cleanedTitle in
  let cleanedTitle := replace RUSSIAN_CAST_REGEX (RLit []) cleanedTitle in
  let cleanedTitle :=
    replace (Cat [ Bol; Class OPENING_MARKS; Star Dot; Class CLOSING_MARKS;
                   Opt (Class [one (chr " "); one (chr ".")]); Group (Plus Dot) ])
            RGroup1 cleanedTitle in
  let cleanedTitle :=
    replace (Cat [ Group (Plus Dot); Opt (Class [one (chr " "); one (chr ".")]);
                   Class OPENING_MARKS; Star Dot; Class CLOSING_MARKS; Eol ])
            RGroup1 cleanedTitle in
  let cleanedTitle := replace_all ALT_TITLES_REGEX (RLit []) cleanedTitle in
  let cleanedTitle := replace_all NOT_ONLY_NON_ENGLISH_REGEX (RLit []) cleanedTitle in
  let cleanedTitle :=
    replace_all REMAINING_NOT_ALLOWED_SYMBOLS_AT_START_AND_END (RLit []) cleanedTitle in
  trim cleanedTitle.

(** ** Parser.addHandler *)

(** The second argument of [addHandler]. *)
Inductive HandlerArg :=
| handler_undefined
| handler_regexp (regExp : RegExp)
| handler_function (f : HandlerFn)
| handler_other (typeof : JsString).

(** The third argument of [addHandler]. *)
Inductive TransformerArg :=
| transformer_undefined
| transformer_function (t : Transformer)
| transformer_object (o : Options.partial)
| transformer_other.

Definition typeof_handler (handler : HandlerArg) : JsString :=
  match handler with
  | handler_undefined => str "undefined"
  | handler_regexp _ => str "object"
  | handler_function _ => str "function"
  | handler_other ty => ty
  end.

Definition addHandler (handlers : list Handler) (handlerName : NameArg)
    (handler : HandlerArg) (transformer : TransformerArg)
    (options : option Options.partial) : Res (list Handler) :=
  match handler, handlerName with
  | handler_undefined, name_function f =>
      (* no name is provided and a function handler is directly given *)
      Ok (handlers ++ [ {| call := f; handlerName := name_string (str "unknown") |} ])
  | handler_regexp regExp, name_string name =>
      (* the handler provided is a regular expression *)
      let transformer :=
        match transformer with
        | transformer_function t => t
        | _ => none
        end in
      (* [transformer] is a function by now: its typeof is never "object" *)
      let options :=
        extendOptions
          match transformer_function transformer with
          | transformer_object o => Some o
          | _ => options
          end in
      Ok (handlers ++ [ createHandlerFromRegExp name regExp transformer options ])
  | handler_function f, _ =>
      (* the handler is a function *)
      Ok (handlers ++ [ {| call := f; handlerName := handlerName |} ])
  | _, _ =>
      Throw (ConfigurationError (typeof_handler handler))
  end.

(** ** Parser.parse *)

(** The variables of one [parse] call. *)
Record State := mkState {
  title : JsString;
  result : Result;
  matched : MatchedMap;
  endOfTitle : Z
}.

(** [title.slice(0, matchIndex) + title.slice(matchIndex + rawMatch.length)]:
    with [matchIndex] undefined the first slice runs to the end of the
    string, and the second starts at [NaN], which [slice] reads as 0. *)
Definition splice (title : JsString) (matchIndex : option Z)
    (rawMatch : JsString) : JsString :=
  match matchIndex with
  | Some i => slice title 0 i ++ slice_from title (i + len rawMatch)
  | None => title ++ title
  end.

(** One turn of the loop over the handlers. *)
Definition step (handler : Handler) (st : State) : Res State :=
  '(matchResult, result, matched) ← call handler (title st) (result st) (matched st);
  let title :=
    match matchResult with
    | Some m =>
        if MatchResult.remove m
        then splice (title st) (MatchResult.matchIndex m) (MatchResult.rawMatch m)
        else title st
    | None => title st
    end in
  let endOfTitle :=
    match matchResult with
    | Some m =>
        match MatchResult.matchIndex m with
        | Some matchIndex =>
            if negb (MatchResult.skipFromTitle m)
               && negb (matchIndex =? 0)
               && (matchIndex <? endOfTitle st)
            then matchIndex
            else endOfTitle st
        | None => endOfTitle st            (* [undefined] is falsy *)
        end
    | None => endOfTitle st
    end in
  let endOfTitle :=
    match matchResult with
    | Some m =>
        if MatchResult.remove m && MatchResult.skipFromTitle m
           && lt_index (MatchResult.matchIndex m) (Some endOfTitle)
        then endOfTitle - len (MatchResult.rawMatch m)
        else endOfTitle
    | None => endOfTitle
    end in
  Ok {| title := title; result := result; matched := matched;
        endOfTitle := endOfTitle |}.

Fixpoint run (handlers : list Handler) (st : State) : Res State :=
  match handlers with
  | [] => Ok st
  | handler :: handlers' => st' ← step handler st; run handlers' st'
  end.

(** [title.replace(/_+/g, " ")] *)
Definition normalize (title : JsString) : JsString :=
  replace_all (Plus (Lit (chr "_"))) (RLit (str " ")) title.

Definition init (title : JsString) : State :=
  {| title := title; result := empty_object; matched := ∅;
     endOfTitle := len title |}.

Definition parse (handlers : list Handler) (input : JsString) : Res Result :=
  st ← run handlers (init (normalize input));
  Ok (set (result st) (str "title")
          (VStr (cleanTitle (slice (title st) 0 (endOfTitle st))))).

(** The states after each handler in turn, up to the first one that throws. *)
Fixpoint states (handlers : list Handler) (st : State) : list State :=
  match handlers with
  | [] => []
  | handler :: handlers' =>
      match step handler st with
      | Ok st' => st' :: states handlers' st'
      | Throw _ => []
      end
  end.

(** The working title each handler is called with. *)
Fixpoint titles_seen (handlers : list Handler) (st : State) : list JsString :=
  match handlers with
  | [] => []
  | handler :: handlers' =>
      title st ::
      match step handler st with
      | Ok st' => titles_seen handlers' st'
      | Throw _ => []
      end
  end.

(** The boundary in force at each match result, with that match result. *)
Fixpoint outcomes (handlers : list Handler) (st : State)
  : list (Z * MatchResult.t) :=
  match handlers with
  | [] => []
  | handler :: handlers' =>
      match call handler (title st) (result st) (matched st), step handler st with
      | Ok (Some m, _, _), Ok st' => (endOfTitle st, m) :: outcomes handlers' st'
      | Ok (None, _, _), Ok st' => outcomes handlers' st'
      | _, _ => []
      end
  end.

(* ===================================================================== *)
(** * Vocabulary of the properties                                        *)
(* ===================================================================== *)

(** A handler built by [addHandler] from a regular expression. *)
Definition pattern_handler (handler : Handler) : Prop :=
  exists name regExp transformer options,
    handler = createHandlerFromRegExp name regExp transformer options.

(** A registry filled by [addHandler(name, regExp, ...)] calls only. *)
Inductive built_from_patterns : list Handler -> Prop :=
| built_empty : built_from_patterns []
| built_addHandler handlers name regExp transformer options handlers' :
    built_from_patterns handlers ->
    addHandler handlers (name_string name) (handler_regexp regExp)
               transformer options = Ok handlers' ->
    built_from_patterns handlers'.




(** A match result whose start index is a number starts at a position of
    the string and, when it is removed, exempt from the title and starts
    before the boundary, it is not longer than the boundary. *)
Definition within_boundary (o : Z * MatchResult.t) : Prop :=
  forall i, MatchResult.matchIndex o.2 = Some i ->
    0 <= i
    /\ (MatchResult.remove o.2 = true -> MatchResult.skipFromTitle o.2 = true ->
        i < o.1 -> len (MatchResult.rawMatch o.2) <= o.1).

(** The call of the transformer on a match. *)
Definition transformed (transformer : Transformer) (name : JsString)
    (match_ : RegExpMatch) (result : Result) : Res Value :=
  transformer (cleanMatch_or_rawMatch match_) (get result name).

(** The conditions under which a pattern handler returns a match result:
    the field is not skipped as already found, the expression matches a
    non-empty text, the transformer returns a truthy value [v], and neither
    [skipIfFirst] nor [skipIfBefore] vetoes the match. *)
Definition accepted (name : JsString) (regExp : RegExp)
    (transformer : Transformer) (options : Options.t) (title : JsString)
    (result : Result) (matched : MatchedMap) (match_ : RegExpMatch)
    (v : Value) : Prop :=
  truthy (get result name) && Options.skipIfAlreadyFound options = false
  /\ String_match title regExp = Some match_
  /\ nonempty (match_0 match_) = true
  /\ transformed transformer name match_ result = Ok v
  /\ truthy v = true
  /\ isSkipIfFirst options matched name (match_index match_) = false
  /\ isSkipIfBefore options matched (match_index match_) = Ok false.

(** The start index [index] is a number, the entry records a number, and
    the first is less than the second. *)
Definition starts_before (index : option Z) (e : Matched.entry) : Prop :=
  exists i j, index = Some i /\ Matched.matchIndex e = Some j /\ i < j.

(** Some field other than [name] is recorded in [matched], and [index]
    precedes the recorded index of every such field. *)
Definition precedes_all_others (matched : MatchedMap) (name : JsString)
    (index : option Z) : Prop :=
  (exists k e, k <> name /\ matched !! k = Some e)
  /\ (forall k e, k <> name -> matched !! k = Some e -> starts_before index e).

Definition with_skipIfFirst (b : bool) (options : Options.t) : Options.t :=
  {| Options.skipIfAlreadyFound := Options.skipIfAlreadyFound options;
     Options.skipFromTitle := Options.skipFromTitle options;
     Options.skipIfFirst := b;
     Options.skipIfBefore := Options.skipIfBefore options;
     Options.remove := Options.remove options;
     Options.value := Options.value options |}.



(** The name of a property that every object inherits from
    [Object.prototype]. *)
Definition inherited_name (name : JsString) : Prop :=
  name = str "__proto__" \/ name ∈ OBJECT_PROTOTYPE_FUNCTIONS.

(** ** Handlers used in the examples *)

Module Examples.

Definition DIGIT : Regex := Class [range (chr "0") (chr "9")].

(** The transformer [input => input], given by the caller. *)
Definition identity : Transformer := fun input _ => Ok (VStr input).

(** [/[0-9]+/] and [/[0-9]+p/] *)
Definition DIGITS : RegExp := exec (Plus DIGIT).
Definition DIGITS_P : RegExp := exec (Seq (Plus DIGIT) (Lit (chr "p"))).

Definition options (skipFromTitle remove : bool) (value : Value) : Options.t :=
  {| Options.skipIfAlreadyFound := true;
     Options.skipFromTitle := skipFromTitle;
     Options.skipIfFirst := false;
     Options.skipIfBefore := Some [];
     Options.remove := remove;
     Options.value := value |}.

(** [addHandler("resolution", /[0-9]+p/, input => input)] *)
Definition resolution : Handler :=
  createHandlerFromRegExp (str "resolution") DIGITS_P identity DEFAULT_OPTIONS.

(** [addHandler("episode", /Ep[0-9]/, input => input, { remove: true, skipFromTitle: true })] *)
Definition episode : Handler :=
  createHandlerFromRegExp (str "episode")
    (exec (Cat [Lit (chr "E"); Lit (chr "p"); DIGIT])) identity
    (options true true VUndefined).

(** [addHandler("year", /[0-9]+/, input => input)] *)
Definition year : Handler :=
  createHandlerFromRegExp (str "year") DIGITS identity DEFAULT_OPTIONS.



(** [addHandler(name, /[0-9]+/, input => input)] *)
Definition numbered (name : JsString) : Handler :=
  createHandlerFromRegExp name DIGITS identity DEFAULT_OPTIONS.


(** The object [{ year: 1999 }]. *)
Definition year_1999 : Value :=
  VObject 1 (fun name =>
               if bool_decide (name = str "year") then VNum 1999
               else property Object_prototype name).

(** [addHandler("__proto__", /[0-9]+p/, input => input, { skipIfAlreadyFound: false, value: { year: 1999 } })] *)
Definition proto_as_object : Handler :=
  createHandlerFromRegExp (str "__proto__") DIGITS_P identity
    {| Options.skipIfAlreadyFound := false;
       Options.skipFromTitle := false;
       Options.skipIfFirst := false;
       Options.skipIfBefore := Some [];
       Options.remove := false;
       Options.value := year_1999 |}.

(** [/[0-9]+/g] *)
Definition DIGITS_G : RegExp := match_all (Plus DIGIT).

(** [addHandler("year", /[0-9]+/g, input => input, { remove: true })] *)
Definition every_year : Handler :=
  createHandlerFromRegExp (str "year") DIGITS_G identity
    (options false true VUndefined).






End Examples.

(* ===================================================================== *)
(** * Vocabulary of the further properties                                *)
(* ===================================================================== *)

(** ** The matcher *)

Definition start_state (left right : JsString) : MState :=
  {| before := left; after := right; group1 := None |}.

(** [s'] is a later position of the matcher in the same subject: the text
    [mid] lies between the two, and the capture is the one of [s] or a
    piece of [mid]. *)
Definition reaches (s s' : MState) : Prop :=
  exists mid,
    after s = mid ++ after s'
    /\ before s' = rev mid ++ before s
    /\ (group1 s' = group1 s
        \/ exists a g b, mid = a ++ g ++ b /\ group1 s' = Some g).

(** The replacement patterns [""] and ["$1"]. *)
Definition deleting (rep : Replacement) : Prop := rep = RLit [] \/ rep = RGroup1.

(** An expression that matches exactly where the character [u] stands. *)
Definition finds_char (u : N) (r : Regex) : Prop :=
  (forall left, rmatch r (start_state left []) (fun s1 => Some s1) = None)
  /\ (forall left x rest, x <> u ->
        rmatch r (start_state left (x :: rest)) (fun s1 => Some s1) = None)
  /\ (forall left rest, exists s1,
        rmatch r (start_state left (u :: rest)) (fun s1 => Some s1) = Some s1
        /\ (length (after s1) <= length rest)%nat).

Definition BRACKETS : list ClassItem := [one (chr "["); one (chr "]")].

(** ** The sanitizer *)

(** [cleanTitle] after its first step, and after its second. *)
Definition undotted (rawTitle : JsString) : JsString :=
  if (indexOf rawTitle (str " ") =? -1) && negb (indexOf rawTitle (str ".") =? -1)
  then replace_all (Lit (chr ".")) (RLit (str " ")) rawTitle
  else rawTitle.

Definition unscored (rawTitle : JsString) : JsString :=
  replace_all (Lit (chr "_")) (RLit (str " ")) (undotted rawTitle).

Definition no_underscore (s : JsString) : Prop :=
  Forall (fun c => c <> chr "_") s.

(** ** Handlers and registries *)



(** A pattern handler whose expression does not match [title]. *)
Definition finds_nothing (title : JsString) (handler : Handler) : Prop :=
  exists name regExp transformer options,
    handler = createHandlerFromRegExp name regExp transformer options
    /\ String_match title regExp = None.

(** Some field of [groups] is recorded in [matched] after [index]. *)
Definition before_listed (matched : MatchedMap) (groups : list JsString)
    (index : option Z) : Prop :=
  exists group e,
    In group groups /\ matched !! group = Some e /\ starts_before index e.

Definition with_skipIfBefore (groups : list JsString) (options : Options.t)
  : Options.t :=
  {| Options.skipIfAlreadyFound := Options.skipIfAlreadyFound options;
     Options.skipFromTitle := Options.skipFromTitle options;
     Options.skipIfFirst := Options.skipIfFirst options;
     Options.skipIfBefore := Some groups;
     Options.remove := Options.remove options;
     Options.value := Options.value options |}.

(** ** The parse context *)





(** ** More handlers for the examples *)

Module MoreExamples.


(** [addHandler("year", /[0-9]+/, input => input, { skipIfBefore: ["resolution"] })] *)
Definition year_after_resolution : Options.t :=
  with_skipIfBefore [str "resolution"] DEFAULT_OPTIONS.

(** [addHandler(() => { throw null })] *)
Definition thrower : Handler :=
  {| call := fun _ _ _ => Throw (Thrown VNull);
     handlerName := name_string (str "unknown") |}.

End MoreExamples.

(** ** The end boundary *)

(** The index at which a match result caps the title: its start index,
    unless the match is exempt from the title, or starts at 0, or has no
    index. *)
Definition cap (m : MatchResult.t) : option Z :=
  match MatchResult.matchIndex m with
  | Some i =>
      if negb (MatchResult.skipFromTitle m) && negb (i =? 0)
      then Some i
      else None
  | None => None
  end.

(** The least of a boundary and the caps of a list of match results. *)
Definition lowest (boundary : Z) (os : list (Z * MatchResult.t)) : Z :=
  fold_left (fun acc o => match cap o.2 with
                          | Some i => Z.min i acc
                          | None => acc
                          end) os boundary.

(** What the first two steps of [cleanTitle] do to a character. *)
Definition spaced_out (dots : bool) (c : N) : N :=
  if (c =? chr "_")%N || dots && (c =? chr ".")%N then chr " " else c.


(* ===================================================================== *)
(** * Properties                                                          *)
(* ===================================================================== *)

(** ** Strings *)

Lemma len_nonneg (s : JsString) : 0 <= len s.
Proof. unfold len. lia. Qed.

Lemma slice_prefix (s : JsString) (i : Z) :
  0 <= i -> slice s 0 i = take (Z.to_nat i) s.
Proof.
  intros Hi. unfold slice, clamp. simpl.
  destruct (i <? 0) eqn:E; [apply Z.ltb_lt in E; lia|].
  rewrite (Z.min_l 0 (len s)) by apply len_nonneg. rewrite drop_0, Z.sub_0_r.
  destruct (Z.le_ge_cases i (len s)) as [H|H].
  - now rewrite Z.min_l.
  - rewrite Z.min_r by assumption. unfold len in *.
    rewrite Nat2Z.id. rewrite !take_ge; [reflexivity|lia|lia].
Qed.

Lemma slice_from_suffix (s : JsString) (i : Z) :
  0 <= i -> slice_from s i = drop (Z.to_nat i) s.
Proof.
  intros Hi. unfold slice_from, clamp.
  destruct (i <? 0) eqn:E; [apply Z.ltb_lt in E; lia|].
  destruct (Z.le_ge_cases i (len s)) as [H|H].
  - now rewrite Z.min_l.
  - rewrite Z.min_r by assumption. unfold len in *.
    rewrite Nat2Z.id. rewrite !drop_ge; [reflexivity|lia|lia].
Qed.


Lemma lt_index_true (a b : option Z) :
  lt_index a b = true <-> exists i j, a = Some i /\ b = Some j /\ i < j.
Proof.
  unfold lt_index. split.
  - destruct a as [i|], b as [j|]; try discriminate.
    intros H. apply Z.ltb_lt in H. eauto.
  - intros (i & j & -> & -> & H). now apply Z.ltb_lt.
Qed.

(** ** Objects *)

Lemma get_own (object : Obj) (name : JsString) (v : Value) :
  own object !! name = Some v -> get object name = v.
Proof. intros H. unfold get. now rewrite H. Qed.



Lemma own_set_own (object : Obj) (name : JsString) (v w : Value) :
  own object !! name = Some w -> own (set object name v) !! name = Some v.
Proof. intros H. unfold set. rewrite H. simpl. apply lookup_insert_eq. Qed.





Lemma inherited_name_dec (name : JsString) :
  bool_decide (name = str "__proto__")
  || bool_decide (name ∈ OBJECT_PROTOTYPE_FUNCTIONS) = true
  <-> inherited_name name.
Proof.
  unfold inherited_name.
  rewrite orb_true_iff, !bool_decide_eq_true. reflexivity.
Qed.


Lemma get_empty_object_inherited (name : JsString) :
  inherited_name name -> truthy (get empty_object name) = true.
Proof.
  intros H. unfold get, empty_object. simpl. rewrite lookup_empty. simpl.
  destruct (bool_decide (name = str "__proto__")) eqn:E1; [reflexivity|].
  destruct H as [->|H]; [now rewrite bool_decide_eq_true_2 in E1|].
  now rewrite bool_decide_eq_true_2 by exact H.
Qed.

(** ** The matched registry *)

Lemma get_matched_own (matched : MatchedMap) (name : JsString) e :
  matched !! name = Some e -> get_matched matched name = Some e.
Proof. intros H. unfold get_matched. now rewrite H. Qed.

(** Only an own record with an index counts in a comparison. *)
Lemma get_matched_before (matched : MatchedMap) (group : JsString)
    (index : option Z) :
  match get_matched matched group with
  | Some e => lt_index index (Matched.matchIndex e)
  | None => false
  end = true
  <-> exists e, matched !! group = Some e /\ starts_before index e.
Proof.
  unfold get_matched, starts_before. destruct (matched !! group) as [e|] eqn:E.
  - rewrite lt_index_true. split.
    + intros H. exists e. auto.
    + intros (e' & [= <-] & H). exact H.
  - split.
    + destruct (_ || _); simpl; [|discriminate].
      now destruct index.
    + intros (e & H & _). discriminate.
Qed.


Lemma record_match_own (matched : MatchedMap) (name rawMatch : JsString) i e :
  matched !! name = Some e -> record_match matched name rawMatch i = matched.
Proof. intros H. unfold record_match. now rewrite H. Qed.



(** ** The loop of [parse] *)

Lemma step_ok (handler : Handler) (st : State) matchResult result' matched' :
  call handler (title st) (result st) (matched st)
    = Ok (matchResult, result', matched') ->
  exists st', step handler st = Ok st' /\ result st' = result' /\ matched st' = matched'.
Proof. intros H. unfold step. rewrite H. simpl. eauto. Qed.


Lemma step_null (handler : Handler) (st : State) result' matched' :
  call handler (title st) (result st) (matched st) = Ok (None, result', matched') ->
  step handler st =
  Ok {| title := title st; result := result'; matched := matched';
        endOfTitle := endOfTitle st |}.
Proof. intros H. unfold step. rewrite H. reflexivity. Qed.

Lemma step_keeps_title (handler : Handler) (st st' : State) m result' matched' :
  call handler (title st) (result st) (matched st) = Ok (Some m, result', matched') ->
  MatchResult.remove m = false ->
  step handler st = Ok st' ->
  title st' = title st.
Proof.
  intros Hcall Hrem. unfold step. rewrite Hcall. simpl. rewrite Hrem.
  intros [= <-]. reflexivity.
Qed.

Lemma step_inv handler st st' :
  step handler st = Ok st' ->
  exists o, call handler (title st) (result st) (matched st)
            = Ok (o, result st', matched st').
Proof.
  unfold step.
  destruct (call handler (title st) (result st) (matched st)) as [[[mr r] m]|e];
    simpl; [|discriminate].
  intros [= <-]. simpl. eauto.
Qed.


(** The two updates of the boundary, for a match result with an index. *)
Lemma step_endOfTitle (handler : Handler) (st st' : State) m result' matched' :
  call handler (title st) (result st) (matched st) = Ok (Some m, result', matched') ->
  step handler st = Ok st' ->
  match MatchResult.matchIndex m with
  | Some i =>
      let lowered :=
        if negb (MatchResult.skipFromTitle m) && negb (i =? 0)
           && (i <? endOfTitle st)
        then i else endOfTitle st in
      endOfTitle st' =
        if MatchResult.remove m && MatchResult.skipFromTitle m && (i <? lowered)
        then lowered - len (MatchResult.rawMatch m)
        else lowered
  | None => endOfTitle st' = endOfTitle st
  end.
Proof.
  intros Hcall. unfold step. rewrite Hcall. simpl. intros [= <-]. simpl.
  destruct (MatchResult.matchIndex m) as [i|]; simpl; [reflexivity|].
  now rewrite andb_false_r.
Qed.

Lemma step_endOfTitle_le (handler : Handler) (st st' : State) :
  step handler st = Ok st' -> endOfTitle st' <= endOfTitle st.
Proof.
  intros Hstep. destruct (step_inv _ _ _ Hstep) as [[m|] Hcall].
  - pose proof (step_endOfTitle _ _ _ _ _ _ Hcall Hstep) as H.
    pose proof (len_nonneg (MatchResult.rawMatch m)).
    destruct (MatchResult.matchIndex m) as [i|]; [|lia].
    cbv zeta in H. rewrite H.
    repeat case_match; try lia;
      repeat match goal with
             | H : _ && _ = true |- _ => apply andb_prop in H; destruct H
             | H : (_ <? _) = true |- _ => apply Z.ltb_lt in H
             end; lia.
  - rewrite (step_null _ _ _ _ Hcall) in Hstep. injection Hstep as <-.
    simpl. lia.
Qed.

Lemma step_nonneg (handler : Handler) (st st' : State) mr result' matched' :
  call handler (title st) (result st) (matched st) = Ok (Some mr, result', matched') ->
  step handler st = Ok st' ->
  0 <= endOfTitle st ->
  within_boundary (endOfTitle st, mr) ->
  0 <= endOfTitle st'.
Proof.
  intros Hcall Hstep H0 Hin.
  pose proof (step_endOfTitle _ _ _ _ _ _ Hcall Hstep) as H.
  destruct (MatchResult.matchIndex mr) as [i|] eqn:Ei; [|lia].
  destruct (Hin i Ei) as [Hidx Hlen]. simpl in Hlen.
  cbv zeta in H. rewrite H.
  destruct (MatchResult.remove mr), (MatchResult.skipFromTitle mr); simpl;
    destruct (i =? 0); simpl;
    destruct (i <? endOfTitle st) eqn:E; simpl;
    try lia.
  all: apply Z.ltb_lt in E; specialize (Hlen eq_refl eq_refl E); lia.
Qed.

Lemma run_app (hs1 hs2 : list Handler) (st : State) :
  run (hs1 ++ hs2) st = (st1 ← run hs1 st; run hs2 st1).
Proof.
  revert st. induction hs1 as [|h hs1 IH]; intros st; simpl; [reflexivity|].
  destruct (step h st) as [st'|e]; simpl; [apply IH|reflexivity].
Qed.

Lemma states_bounded (handlers : list Handler) (st : State) :
  Forall (fun st' => endOfTitle st' <= endOfTitle st) (states handlers st).
Proof.
  revert st. induction handlers as [|h hs IH]; intros st; simpl; [constructor|].
  destruct (step h st) as [st'|e] eqn:E; [|constructor].
  apply step_endOfTitle_le in E. constructor; [assumption|].
  eapply Forall_impl; [apply IH|]. simpl. intros. lia.
Qed.

Lemma boundaries_sorted (handlers : list Handler) (st : State) :
  StronglySorted Z.ge (endOfTitle st :: map endOfTitle (states handlers st)).
Proof.
  revert st. induction handlers as [|h hs IH]; intros st; simpl.
  - repeat constructor.
  - destruct (step h st) as [st'|e] eqn:E; simpl; [|repeat constructor].
    constructor; [apply IH|].
    pose proof (step_endOfTitle_le _ _ _ E).
    constructor; [lia|].
    apply Forall_map. eapply Forall_impl; [apply states_bounded|].
    simpl. intros. lia.
Qed.

Lemma boundaries_nonneg (handlers : list Handler) (st : State) :
  0 <= endOfTitle st ->
  Forall within_boundary (outcomes handlers st) ->
  Forall (Z.le 0) (endOfTitle st :: map endOfTitle (states handlers st)).
Proof.
  revert st. induction handlers as [|h hs IH]; intros st H0 Hall; simpl.
  - repeat constructor. assumption.
  - simpl in Hall.
    destruct (step h st) as [st'|e] eqn:Hstep; [|repeat constructor; assumption].
    constructor; [assumption|].
    destruct (call h (title st) (result st) (matched st))
      as [[[[mr|] r] m]|e] eqn:Hcall.
    + apply Forall_cons in Hall as [Hhere Hrest].
      apply IH; [|assumption]. eapply step_nonneg; eassumption.
    + apply IH; [|assumption].
      rewrite (step_null _ _ _ _ Hcall) in Hstep. injection Hstep as <-.
      assumption.
    + unfold step in Hstep. rewrite Hcall in Hstep. discriminate.
Qed.

Lemma titles_seen_without_removal (later : list Handler) (st : State) :
  Forall (fun o => MatchResult.remove o.2 = false) (outcomes later st) ->
  Forall (eq (title st)) (titles_seen later st).
Proof.
  revert st. induction later as [|h hs IH]; intros st Hall; simpl; [constructor|].
  constructor; [reflexivity|]. simpl in Hall.
  destruct (call h (title st) (result st) (matched st))
    as [[[[m|] r] m']|e] eqn:Hcall.
  - destruct (step_ok _ _ _ _ _ Hcall) as (st' & Hstep & _).
    rewrite Hstep in *. apply Forall_cons in Hall as [Hrem Hrest]. simpl in Hrem.
    rewrite <- (step_keeps_title _ _ _ _ _ _ Hcall Hrem Hstep). now apply IH.
  - rewrite (step_null _ _ _ _ Hcall) in *. now apply (IH (mkState _ _ _ _)).
  - unfold step. rewrite Hcall. constructor.
Qed.




(** ** Pattern handlers *)

Section PatternHandler.

Variables (name : JsString) (regExp : RegExp) (transformer : Transformer)
          (options : Options.t).

Lemma call_pattern_handler title result matched :
  call (createHandlerFromRegExp name regExp transformer options)
       title result matched
  = if truthy (get result name) && Options.skipIfAlreadyFound options
    then Ok (None, result, matched)
    else
      match String_match title regExp with
      | None => Ok (None, result, matched)
      | Some match_ =>
          if nonempty (match_0 match_) then
            match transformed transformer name match_ result with
            | Throw e => Throw e
            | Ok v =>
                match isSkipIfBefore options matched (match_index match_) with
                | Throw e => Throw e
                | Ok before =>
                    if truthy v
                       && negb (isSkipIfFirst options matched name
                                  (match_index match_))
                       && negb before
                    then
                      Ok (Some (MatchResult.mk (match_0 match_)
                                  (match_index match_)
                                  (Options.remove options)
                                  (isBeforeTitle title (match_0 match_)
                                   || Options.skipFromTitle options)),
                          set result name (or_else (Options.value options) v),
                          record_match matched name (match_0 match_)
                            (match_index match_))
                    else Ok (None, result, matched)
                end
            end
          else Ok (None, result, matched)
      end.
Proof.
  unfold transformed. simpl.
  destruct (_ && _); [reflexivity|].
  destruct (String_match title regExp) as [match_|]; [|reflexivity].
  destruct (nonempty _); [|reflexivity].
  destruct (transformer _ _) as [v|e]; [|reflexivity]. simpl.
  destruct (isSkipIfBefore _ _ _) as [b|e]; reflexivity.
Qed.

Lemma handler_accepts_inv title result matched m result' matched' :
  call (createHandlerFromRegExp name regExp transformer options)
       title result matched = Ok (Some m, result', matched') ->
  exists match_ v,
    accepted name regExp transformer options title result matched match_ v
    /\ result' = set result name (or_else (Options.value options) v)
    /\ matched' = record_match matched name (match_0 match_) (match_index match_)
    /\ m = MatchResult.mk (match_0 match_) (match_index match_)
             (Options.remove options)
             (isBeforeTitle title (match_0 match_) || Options.skipFromTitle options).
Proof.
  rewrite call_pattern_handler. unfold accepted.
  destruct (truthy (get result name) && Options.skipIfAlreadyFound options) eqn:E1;
    [discriminate|].
  destruct (String_match title regExp) as [match_|] eqn:E2; [|discriminate].
  destruct (nonempty (match_0 match_)) eqn:E3; [|discriminate].
  destruct (transformed transformer name match_ result) as [v|e] eqn:E4;
    [|discriminate].
  destruct (isSkipIfBefore _ _ _) as [b|e] eqn:E6; [|discriminate].
  destruct (truthy v) eqn:E5; simpl; [|discriminate].
  destruct (isSkipIfFirst _ _ _ _) eqn:E7; simpl; [discriminate|].
  destruct b; simpl; [discriminate|].
  intros [= <- <- <-]. exists match_, v. repeat split; assumption || reflexivity.
Qed.







Lemma handler_rejects title result matched :
  String_match title regExp = None
  \/ (exists match_, String_match title regExp = Some match_
        /\ (match_0 match_ = []
            \/ exists v, transformed transformer name match_ result = Ok v
                         /\ truthy v = false
                         /\ is_Some (Options.skipIfBefore options))) ->
  call (createHandlerFromRegExp name regExp transformer options)
       title result matched = Ok (None, result, matched).
Proof.
  rewrite call_pattern_handler.
  intros [H|(match_ & H & [E|(v & E & Hv & [groups Hg])])]; rewrite H.
  - now destruct (_ && _).
  - rewrite E. simpl. now destruct (_ && _).
  - rewrite E, Hv. unfold isSkipIfBefore. rewrite Hg. simpl.
    destruct (_ && _); [reflexivity|]. now destruct (nonempty _).
Qed.


End PatternHandler.





Lemma built_from_patterns_Forall (handlers : list Handler) :
  built_from_patterns handlers -> Forall pattern_handler handlers.
Proof.
  induction 1 as [|hs name regExp transformer options hs' _ IH Hadd]; [constructor|].
  simpl in Hadd. injection Hadd as <-.
  apply Forall_app. split; [exact IH|].
  constructor; [|constructor]. unfold pattern_handler. eauto 10.
Qed.




Lemma otherMatches_elem (matched : MatchedMap) (name k : JsString) e :
  In (k, e) (otherMatches matched name) <-> k <> name /\ matched !! k = Some e.
Proof.
  unfold otherMatches. rewrite filter_In, <- list_elem_of_In, elem_of_map_to_list.
  simpl. rewrite negb_true_iff, bool_decide_eq_false. tauto.
Qed.

Lemma isSkipIfFirst_true_iff (options : Options.t) (matched : MatchedMap)
    (name : JsString) index :
  Options.skipIfFirst options = true ->
  isSkipIfFirst options matched name index = true
  <-> precedes_all_others matched name index.
Proof.
  intros Hopt. unfold isSkipIfFirst, precedes_all_others. rewrite Hopt. simpl.
  rewrite andb_true_iff, negb_true_iff, Nat.eqb_neq, forallb_forall. split.
  - intros [Hlen Hall]. split.
    + destruct (otherMatches matched name) as [|[k e] l] eqn:E; [done|].
      exists k, e. apply otherMatches_elem. rewrite E. now left.
    + intros k e Hk He. apply lt_index_true.
      apply (Hall (k, e)). apply otherMatches_elem. tauto.
  - intros [(k & e & Hk & He) Hall]. split.
    + assert (Hin : In (k, e) (otherMatches matched name))
        by (apply otherMatches_elem; tauto).
      destruct (otherMatches matched name); [destruct Hin|done].
    + intros [k' e'] Hin. apply otherMatches_elem in Hin as [Hk' He'].
      apply lt_index_true. simpl. eapply Hall; eauto.
Qed.

Lemma isSkipIfFirst_off (options : Options.t) matched name index :
  Options.skipIfFirst options = false ->
  isSkipIfFirst options matched name index = false.
Proof. intros H. unfold isSkipIfFirst. rewrite H. reflexivity. Qed.

Lemma isSkipIfBefore_true_iff options matched index groups :
  Options.skipIfBefore options = Some groups ->
  isSkipIfBefore options matched index = Ok true
  <-> before_listed matched groups index.
Proof.
  intros Hg. unfold isSkipIfBefore, before_listed. rewrite Hg. split.
  - intros [= H]. apply existsb_exists in H as (group & Hin & H).
    apply get_matched_before in H as (e & He & H). eauto.
  - intros (group & e & Hin & He & H). f_equal. apply existsb_exists.
    exists group. split; [exact Hin|]. apply get_matched_before. eauto.
Qed.

Lemma isSkipIfBefore_false options matched index groups :
  Options.skipIfBefore options = Some groups ->
  ~ before_listed matched groups index ->
  isSkipIfBefore options matched index = Ok false.
Proof.
  intros Hg Hn.
  destruct (isSkipIfBefore options matched index) as [[|]|e] eqn:E.
  - exfalso. apply Hn. now apply (isSkipIfBefore_true_iff options).
  - reflexivity.
  - unfold isSkipIfBefore in E. rewrite Hg in E. discriminate.
Qed.


(** ** The sanitizer on the scenarios of the specification *)

Example cleanTitle_leading_group :
  cleanTitle (str "[ReleaseGroup] Show Name (2019)") = str "Show Name (2019)".
Proof. vm_compute. reflexivity. Qed.

(** ["Title / \u30bf\u30a4\u30c8\u30eb (Cast Info)"] *)
Example cleanTitle_alternative_title :
  cleanTitle (str "Title / " ++ [0x30bf; 0x30a4; 0x30c8; 0x30eb]%N
                ++ str " (Cast Info)")
  = str "Title".
Proof. vm_compute. reflexivity. Qed.

Example cleanTitle_movie_flag :
  cleanTitle (str "__[movie] The_Title - ") = str "The Title".
Proof. vm_compute. reflexivity. Qed.

Example normalize_underscores :
  normalize (str "a__b_c___") = str "a b c ".
Proof. vm_compute. reflexivity. Qed.

(** Two handlers named ["year"]: only the first match is kept. *)
Example parse_two_year_handlers :
  exists r,
    parse [Examples.year; Examples.year] (str "Movie 2020 1999") = Ok r
    /\ own r !! str "year" = Some (VStr (str "2020"))
    /\ own r !! str "title" = Some (VStr (str "Movie")).
Proof. eexists. split; [vm_compute; reflexivity|]. split; reflexivity. Qed.

(** An expression with the [g] flag: the match has no index, the second
    match is taken for the capture, and a removal doubles the title. *)
Example run_with_the_g_flag :
  exists st,
    run [Examples.every_year] (init (str "ab 12 34")) = Ok st
    /\ title st = str "ab 12 34ab 12 34"
    /\ own (result st) !! str "year" = Some (VStr (str "34"))
    /\ matched st !! str "year" = Some (Matched.mk (str "12") None)
    /\ endOfTitle st = 8.
Proof. eexists. split; [vm_compute; reflexivity|]. repeat split; reflexivity. Qed.

(** A field named like a function of [Object.prototype] counts as already
    found. *)
Example parse_field_named_toString :
  parse [Examples.numbered (str "toString")] (str "Movie 2020")
  = Ok {| own := {[ str "title" := VStr (str "Movie 2020") ]};
          proto := Object_prototype |}.
Proof. vm_compute. reflexivity. Qed.

(** Under the name ["__proto__"] an object becomes the prototype of the
    result map: no entry is made, and the field ["year"] then reads what the
    prototype holds, so that its handler is skipped as already found. *)
Example parse_field_named_proto :
  exists r,
    parse [Examples.proto_as_object; Examples.year] (str "Movie 2020 1080p") = Ok r
    /\ own r = {[ str "title" := VStr (str "Movie 2020") ]}
    /\ proto r = Examples.year_1999
    /\ get r (str "year") = VNum 1999.
Proof. eexists. split; [vm_compute; reflexivity|]. repeat split. Qed.

(* ===================================================================== *)
(** * The claims                                                          *)
(* ===================================================================== *)

(** ** The title end boundary *)

(** C1, as amended: for every handler list and every input, the title end
    boundary starts at the length of the normalized input and is
    non-increasing after each handler invocation; it stays non-negative
    as long as every match result has a non-negative start index and, when
    it is removed, exempt from the title and starts before the boundary, is
    not longer than the boundary. *)
Theorem C1_boundary_starts_at_length_and_never_grows
    (handlers : list Handler) (input : JsString) :
  let st0 := init (normalize input) in
  let boundaries := endOfTitle st0 :: map endOfTitle (states handlers st0) in
  endOfTitle st0 = len (normalize input)
  /\ StronglySorted Z.ge boundaries
  /\ (Forall within_boundary (outcomes handlers st0) -> Forall (Z.le 0) boundaries).
Proof.
  intros st0 boundaries. split; [reflexivity|]. split.
  - apply boundaries_sorted.
  - apply boundaries_nonneg. apply len_nonneg.
Qed.

Lemma C1_witness :
  let handlers := [Examples.year; Examples.resolution] in
  let st0 := init (normalize (str "Movie 2020 1080p")) in
  Forall within_boundary (outcomes handlers st0)
  /\ Forall (Z.le 0) (endOfTitle st0 :: map endOfTitle (states handlers st0)).
Proof.
  intros handlers st0.
  assert (H : Forall within_boundary (outcomes handlers st0)).
  { assert (E : outcomes handlers st0 =
                [ (16, MatchResult.mk (str "2020") (Some 6) false false);
                  (6, MatchResult.mk (str "1080p") (Some 11) false false) ]).
    { vm_compute. reflexivity. }
    rewrite E.
    apply Forall_cons. split; [|apply Forall_cons; split; [|constructor]];
      intros i [= <-]; simpl; (split; [lia|discriminate]). }
  split; [exact H|].
  exact (proj2 (proj2 (C1_boundary_starts_at_length_and_never_grows
                         handlers (str "Movie 2020 1080p"))) H).
Defined.

(** C1 as stated fails: with [resolution] registered before an [episode]
    handler that removes its match and exempts it from the title, the
    input ["Ep1080p.mkv"] leaves the boundary at 2 and then at 2 - 3 = -1. *)
Lemma C1_counterexample :
  let handlers := [Examples.resolution; Examples.episode] in
  let st0 := init (normalize (str "Ep1080p.mkv")) in
  Forall pattern_handler handlers
  /\ endOfTitle st0 = 11
  /\ map endOfTitle (states handlers st0) = [2; -1]
  /\ (exists st, run handlers st0 = Ok st /\ endOfTitle st = -1 /\ endOfTitle st < 0)
  /\ ~ Forall (Z.le 0) (endOfTitle st0 :: map endOfTitle (states handlers st0)).
Proof.
  intros handlers st0.
  assert (E : map endOfTitle (states handlers st0) = [2; -1])
    by (vm_compute; reflexivity).
  split; [repeat constructor; unfold pattern_handler; eauto 10|].
  split; [reflexivity|]. split; [exact E|]. split.
  - assert (R : exists st, run handlers st0 = Ok st /\ endOfTitle st = -1).
    { eexists. split; [vm_compute; reflexivity|reflexivity]. }
    destruct R as (st & R1 & R2). exists st. split; [exact R1|]. split; [exact R2|lia].
  - rewrite E. intros H. inversion H as [|? ? _ H1]; subst.
    inversion H1 as [|? ? _ H2]; subst. inversion H2 as [|? ? H3 _]; subst. lia.
Qed.

(** C2, as amended: for a pattern handler's match result whose
    [skipFromTitle] flag is false: when its start index is strictly less
    than the current end boundary, [parse] lowers the boundary exactly to
    that start index if the index is not 0, and leaves the boundary
    unchanged if the index is 0; at index 0 the boundary is left unchanged
    whatever the boundary is. *)
Theorem C2_boundary_lowered_to_nonzero_match_start
    (name : JsString) (regExp : RegExp) (transformer : Transformer)
    (options : Options.t) (st : State)
    (m : MatchResult.t) (result' : Result) (matched' : MatchedMap) (i : Z) :
  let handler := createHandlerFromRegExp name regExp transformer options in
  call handler (title st) (result st) (matched st) = Ok (Some m, result', matched') ->
  MatchResult.skipFromTitle m = false ->
  MatchResult.matchIndex m = Some i ->
  exists st',
    step handler st = Ok st'
    /\ (i < endOfTitle st ->
        endOfTitle st' = if i =? 0 then endOfTitle st else i)
    /\ (i = 0 -> endOfTitle st' = endOfTitle st).
Proof.
  intros handler Hcall Hskip Hi.
  destruct (step_ok _ _ _ _ _ Hcall) as (st' & Hstep & _).
  exists st'. split; [exact Hstep|].
  pose proof (step_endOfTitle _ _ _ _ _ _ Hcall Hstep) as H.
  rewrite Hi in H. cbv zeta in H. rewrite H, Hskip. simpl.
  rewrite !andb_false_r. split.
  - intros Hlt. apply Z.ltb_lt in Hlt. rewrite Hlt.
    destruct (i =? 0); reflexivity.
  - intros ->. reflexivity.
Qed.

Lemma C2_witness :
  exists st',
    step Examples.year (init (str "Movie 2020")) = Ok st' /\ endOfTitle st' = 6.
Proof.
  destruct (C2_boundary_lowered_to_nonzero_match_start
              (str "year") Examples.DIGITS Examples.identity DEFAULT_OPTIONS
              (init (str "Movie 2020"))
              (MatchResult.mk (str "2020") (Some 6) false false)
              (mkObj (<[ str "year" := VStr (str "2020") ]> ∅) Object_prototype)
              (<[ str "year" := Matched.mk (str "2020") (Some 6) ]> ∅) 6)
    as (st' & Hstep & Hlow & _).
  - vm_compute. reflexivity.
  - reflexivity.
  - reflexivity.
  - exists st'. split; [exact Hstep|]. rewrite Hlow; [reflexivity|].
    vm_compute. reflexivity.
Defined.

(** C2 as stated fails at start index 0: [year] matches ["2020"] at the
    start of ["2020 Movie"], the flag is false and 0 < 10, yet the boundary
    stays at 10. *)
Lemma C2_counterexample :
  let st := init (str "2020 Movie") in
  exists m result' matched' st',
    call Examples.year (title st) (result st) (matched st)
      = Ok (Some m, result', matched')
    /\ pattern_handler Examples.year
    /\ MatchResult.skipFromTitle m = false
    /\ MatchResult.matchIndex m = Some 0
    /\ 0 < endOfTitle st
    /\ step Examples.year st = Ok st'
    /\ endOfTitle st' = 10
    /\ Some (endOfTitle st') <> MatchResult.matchIndex m.
Proof.
  intros st.
  exists (MatchResult.mk (str "2020") (Some 0) false false),
         (mkObj (<[ str "year" := VStr (str "2020") ]> ∅) Object_prototype),
         (<[ str "year" := Matched.mk (str "2020") (Some 0) ]> ∅).
  eexists. split; [vm_compute; reflexivity|].
  split; [unfold pattern_handler; eauto 10|].
  split; [reflexivity|]. split; [reflexivity|]. split; [reflexivity|].
  split; [vm_compute; reflexivity|]. split; [reflexivity|]. simpl. discriminate.
Qed.

(** ** addHandler *)

(** C3: when the third argument of [addHandler(name, regexp, opts)] is an
    options record rather than a function, the pattern handler is the one
    built with the default options (and the default transformer): the record
    has no effect on parsing, whatever it holds, and the registry is the
    same as with the third argument left out. *)
Theorem C3_options_record_as_third_argument_is_ignored
    (handlers : list Handler) (name : JsString) (regExp : RegExp)
    (o : Options.partial) :
  addHandler handlers (name_string name) (handler_regexp regExp)
             (transformer_object o) None
  = Ok (handlers ++ [ createHandlerFromRegExp name regExp none DEFAULT_OPTIONS ])
  /\ (forall options,
        addHandler handlers (name_string name) (handler_regexp regExp)
                   (transformer_object o) options
        = addHandler handlers (name_string name) (handler_regexp regExp)
                     transformer_undefined options)
  /\ (forall input,
        (registry ← addHandler handlers (name_string name) (handler_regexp regExp)
                      (transformer_object o) None;
         parse registry input)
        = parse (handlers
                   ++ [ createHandlerFromRegExp name regExp none DEFAULT_OPTIONS ])
                input).
Proof. repeat split; reflexivity. Qed.

(** ** Two handlers for one field *)




(** ** The [remove] option *)

(** C5, as amended: when a handler's match result has [remove] set,
    [parse] replaces the working title by [slice(0, matchIndex)] followed
    by [slice(matchIndex + rawMatch.length)].  When the start index is a
    non-negative number, this is the text before the match start followed
    by the text after the matched span: the characters before the span keep
    their place and those after it move left by the length of the span,
    nothing else changes.  When the start index is undefined, it is the
    working title twice.  The handlers that follow are run on the state
    holding the new string: the next one is called with it, and so is every
    later one until another match is removed. *)
Theorem C5_remove_splices_the_match_out_for_later_handlers
    (handler : Handler) (st : State) (m : MatchResult.t)
    (result' : Result) (matched' : MatchedMap) :
  call handler (title st) (result st) (matched st) = Ok (Some m, result', matched') ->
  MatchResult.remove m = true ->
  let n := length (MatchResult.rawMatch m) in
  exists st',
    step handler st = Ok st'
    /\ (forall index, MatchResult.matchIndex m = Some index ->
        let i := Z.to_nat index in
        title st'
        = slice (title st) 0 index
            ++ slice_from (title st) (index + len (MatchResult.rawMatch m))
        /\ (0 <= index ->
            title st' = take i (title st) ++ drop (i + n) (title st)
            /\ (forall k, (k < i)%nat -> title st' !! k = title st !! k)
            /\ (forall k, (i <= k)%nat -> title st' !! k = title st !! (k + n)%nat)))
    /\ (MatchResult.matchIndex m = None -> title st' = title st ++ title st)
    /\ (forall later, run (handler :: later) st = run later st')
    /\ (forall later,
          titles_seen (handler :: later) st = title st :: titles_seen later st')
    /\ (forall next later,
          titles_seen (handler :: next :: later) st !! 1%nat = Some (title st'))
    /\ (forall later,
          Forall (fun o => MatchResult.remove o.2 = false) (outcomes later st') ->
          Forall (eq (title st')) (titles_seen later st')).
Proof.
  intros Hcall Hrem n.
  destruct (step_ok _ _ _ _ _ Hcall) as (st' & Hstep & _).
  assert (Hsplice : title st'
            = splice (title st) (MatchResult.matchIndex m) (MatchResult.rawMatch m)).
  { revert Hstep. unfold step. rewrite Hcall. simpl. rewrite Hrem.
    intros [= <-]. reflexivity. }
  exists st'. split; [exact Hstep|].
  split; [|split; [|split; [|split; [|split]]]].
  - intros index Hindex i. rewrite Hindex in Hsplice. simpl in Hsplice.
    split; [exact Hsplice|]. intros Hidx.
    assert (Htitle : title st' = take i (title st) ++ drop (i + n) (title st)).
    { rewrite Hsplice. rewrite slice_prefix by assumption.
      rewrite slice_from_suffix by (unfold len; lia).
      unfold len, i, n. rewrite Z2Nat.inj_add by lia. rewrite Nat2Z.id.
      reflexivity. }
    split; [exact Htitle|]. split.
    + intros k Hk. rewrite Htitle.
      destruct (decide (k < length (title st))%nat) as [Hlt|Hge].
      * rewrite lookup_app_l by (rewrite length_take; lia).
        now apply lookup_take_lt.
      * rewrite take_ge by lia. rewrite drop_ge by lia. now rewrite app_nil_r.
    + intros k Hk. rewrite Htitle.
      destruct (decide (i <= length (title st))%nat) as [Hle|Hgt].
      * rewrite lookup_app_r by (rewrite length_take; lia).
        rewrite length_take, lookup_drop. f_equal. lia.
      * rewrite take_ge by lia. rewrite drop_ge by lia. rewrite app_nil_r.
        rewrite !(proj2 (lookup_ge_None _ _)) by lia. reflexivity.
  - intros Hnone. rewrite Hnone in Hsplice. exact Hsplice.
  - intros later. simpl. rewrite Hstep. reflexivity.
  - intros later. simpl. rewrite Hstep. reflexivity.
  - intros next later. simpl. rewrite Hstep. reflexivity.
  - intros later. apply titles_seen_without_removal.
Qed.

Lemma C5_witness :
  exists st',
    step Examples.episode (init (str "Ep1080p.mkv")) = Ok st'
    /\ title st' = str "080p.mkv"
    /\ titles_seen [Examples.episode; Examples.resolution]
         (init (str "Ep1080p.mkv")) !! 1%nat
       = Some (str "080p.mkv").
Proof.
  assert (Hcall : call Examples.episode (title (init (str "Ep1080p.mkv")))
                    (result (init (str "Ep1080p.mkv")))
                    (matched (init (str "Ep1080p.mkv")))
                  = Ok (Some (MatchResult.mk (str "Ep1") (Some 0) true true),
                        mkObj (<[ str "episode" := VStr (str "Ep1") ]> ∅)
                              Object_prototype,
                        <[ str "episode" := Matched.mk (str "Ep1") (Some 0) ]> ∅))
    by (vm_compute; reflexivity).
  destruct (C5_remove_splices_the_match_out_for_later_handlers
              Examples.episode (init (str "Ep1080p.mkv")) _ _ _ Hcall eq_refl)
    as (st' & Hstep & Htitle & _ & _ & _ & Hseen & _).
  destruct (Htitle 0 eq_refl) as [Ht _].
  exists st'. split; [exact Hstep|]. split; [rewrite Ht; reflexivity|].
  rewrite Hseen, Ht. reflexivity.
Defined.

(** C5 as stated fails when the start index is not a position.  A pattern
    handler whose expression has the [g] flag returns a match result
    without index: with [remove], ["Movie 2020"] becomes
    ["Movie 2020Movie 2020"], the matched text is still there and the
    title is not the text before the match followed by the text after it.
    A function handler that returns the index -1 for the text ["ab"] turns
    ["hello"] into ["hellello"]. *)
Lemma C5_counterexample :
  (let st := init (str "Movie 2020") in
   exists m result' matched' st',
     call Examples.every_year (title st) (result st) (matched st)
       = Ok (Some m, result', matched')
     /\ MatchResult.remove m = true
     /\ MatchResult.rawMatch m = str "2020"
     /\ step Examples.every_year st = Ok st'
     /\ title st' = str "Movie 2020Movie 2020"
     /\ title st' <> str "Movie "
     /\ titles_seen [Examples.every_year; Examples.resolution] st !! 1%nat
        = Some (str "Movie 2020Movie 2020"))
  /\ (let handler :=
        {| call := fun _ result matched =>
                     Ok (Some (MatchResult.mk (str "ab") (Some (-1)) true false),
                         result, matched);
           handlerName := name_string (str "unknown") |} in
      exists st',
        step handler (init (str "hello")) = Ok st'
        /\ title st' = str "hellello"
        /\ (length (title st') > length (str "hello"))%nat).
Proof.
  split.
  - intros st.
    exists (MatchResult.mk (str "2020") None true false),
           (mkObj (<[ str "year" := VStr (str "2020") ]> ∅) Object_prototype),
           (<[ str "year" := Matched.mk (str "2020") None ]> ∅).
    eexists. split; [vm_compute; reflexivity|]. split; [reflexivity|].
    split; [reflexivity|]. split; [vm_compute; reflexivity|].
    split; [reflexivity|]. split; [discriminate|]. vm_compute. reflexivity.
  - intros handler. eexists. split; [vm_compute; reflexivity|].
    split; [reflexivity|]. simpl. lia.
Qed.

(** ** The [skipIfFirst] option *)

(** C6: with a candidate match at hand, a pattern handler configured with
    [skipIfFirst] is a no-op when some field other than its own is recorded
    in the matched registry and the candidate's start index is strictly
    less than the recorded index of every such field (it stores nothing and
    returns no match where the same handler without the option returns; it
    throws what that one throws); in every other case it behaves as the
    same handler without the option.  So the option turns a match into a
    no-op exactly under that condition. *)
Theorem C6_skipIfFirst_skips_exactly_before_all_others
    (name : JsString) (regExp : RegExp) (transformer : Transformer)
    (options : Options.t) (title : JsString) (result : Result)
    (matched : MatchedMap) :
  let on := createHandlerFromRegExp name regExp transformer
              (with_skipIfFirst true options) in
  let off := createHandlerFromRegExp name regExp transformer
               (with_skipIfFirst false options) in
  (String_match title regExp = None ->
   call on title result matched = call off title result matched)
  /\ (forall match_, String_match title regExp = Some match_ ->
        (precedes_all_others matched name (match_index match_) ->
         match call off title result matched with
         | Ok _ => call on title result matched = Ok (None, result, matched)
         | Throw e => call on title result matched = Throw e
         end)
        /\ (~ precedes_all_others matched name (match_index match_) ->
            call on title result matched = call off title result matched))
  /\ (forall m result' matched',
        call off title result matched = Ok (Some m, result', matched') ->
        call on title result matched = Ok (None, result, matched) ->
        exists match_,
          String_match title regExp = Some match_
          /\ precedes_all_others matched name (match_index match_)).
Proof.
  intros on off.
  assert (Hsome : forall match_, String_match title regExp = Some match_ ->
            (precedes_all_others matched name (match_index match_) ->
             match call off title result matched with
             | Ok _ => call on title result matched = Ok (None, result, matched)
             | Throw e => call on title result matched = Throw e
             end)
            /\ (~ precedes_all_others matched name (match_index match_) ->
                call on title result matched = call off title result matched)).
  { intros match_ Hmatch. split.
    - intros Hcond.
      apply (isSkipIfFirst_true_iff (with_skipIfFirst true options)) in Hcond;
        [|reflexivity].
      unfold on, off. rewrite !call_pattern_handler, Hmatch, Hcond.
      unfold isSkipIfBefore. simpl.
      destruct (_ && _); [reflexivity|].
      destruct (nonempty _); [|reflexivity].
      destruct (transformed _ _ _ _); [|reflexivity].
      destruct (Options.skipIfBefore options); [|reflexivity].
      rewrite andb_false_r. simpl. now destruct (_ && _).
    - intros Hcond.
      assert (Hon : isSkipIfFirst (with_skipIfFirst true options) matched name
                      (match_index match_) = false).
      { apply not_true_is_false. intros H. apply Hcond.
        apply (isSkipIfFirst_true_iff (with_skipIfFirst true options));
          [reflexivity|exact H]. }
      assert (Hoff : isSkipIfFirst (with_skipIfFirst false options) matched name
                       (match_index match_) = false)
        by (apply isSkipIfFirst_off; reflexivity).
      unfold on, off. rewrite !call_pattern_handler, Hmatch, Hon, Hoff.
      reflexivity. }
  split; [|split].
  - intros Hnone. unfold on, off. rewrite !call_pattern_handler, Hnone. reflexivity.
  - exact Hsome.
  - intros m result' matched' Hoff Hon.
    destruct (handler_accepts_inv _ _ _ _ _ _ _ _ _ _ Hoff)
      as (match_ & v & (_ & Hmatch & _) & _).
    exists match_. split; [exact Hmatch|].
    destruct (isSkipIfFirst (with_skipIfFirst true options) matched name
                (match_index match_)) eqn:E.
    + apply (isSkipIfFirst_true_iff (with_skipIfFirst true options)) in E;
        [exact E|reflexivity].
    + exfalso.
      assert (Hn : ~ precedes_all_others matched name (match_index match_)).
      { intros H.
        apply (isSkipIfFirst_true_iff (with_skipIfFirst true options)) in H;
          [congruence|reflexivity]. }
      destruct (Hsome match_ Hmatch) as [_ Heq]. specialize (Heq Hn).
      rewrite Heq in Hon. fold off in Hon. congruence.
Qed.

Lemma C6_witness :
  let matched : MatchedMap :=
    <[ str "resolution" := Matched.mk (str "1080p") (Some 11) ]> ∅ in
  precedes_all_others matched (str "year") (Some 0)
  /\ call (createHandlerFromRegExp (str "year") Examples.DIGITS Examples.identity
             (with_skipIfFirst true DEFAULT_OPTIONS))
          (str "2020 Movie 1080p") empty_object matched
     = Ok (None, empty_object, matched).
Proof.
  intros matched.
  assert (H : precedes_all_others matched (str "year") (Some 0)).
  { apply (isSkipIfFirst_true_iff (with_skipIfFirst true DEFAULT_OPTIONS));
      [reflexivity|vm_compute; reflexivity]. }
  split; [exact H|].
  exact (proj1 (proj1 (proj2 (C6_skipIfFirst_skips_exactly_before_all_others
            (str "year") Examples.DIGITS Examples.identity DEFAULT_OPTIONS
            (str "2020 Movie 1080p") empty_object matched))
            (mkRegExpMatch (Some 0%nat) (str "2020") None) eq_refl) H).
Defined.

(** ** The [value] option *)




(** ** Errors *)




(** ** The returned title *)

(** C9: with no handler registered, [parse("Movie.Name.2020.1080p-GROUP")]
    returns the title ["Movie Name 2020 1080p-GROUP"]: the slice that
    reaches the sanitizer is the whole input, it holds no space and holds
    dots, every dot becomes a space, and the strips of symbols at the start
    and the end, like the steps after them, leave the string as it is. *)
Theorem C9_dotted_release_name :
  let input := str "Movie.Name.2020.1080p-GROUP" in
  let spaced := str "Movie Name 2020 1080p-GROUP" in
  parse [] input
  = Ok {| own := {[ str "title" := VStr spaced ]}; proto := Object_prototype |}
  /\ (exists st, run [] (init (normalize input)) = Ok st
                 /\ slice (title st) 0 (endOfTitle st) = input)
  /\ indexOf input (str " ") = -1
  /\ indexOf input (str ".") <> -1
  /\ replace_all (Lit (chr ".")) (RLit (str " ")) input = spaced
  /\ replace_all NOT_ALLOWED_SYMBOLS_AT_START_AND_END (RLit []) spaced = spaced
  /\ replace_all REMAINING_NOT_ALLOWED_SYMBOLS_AT_START_AND_END (RLit []) spaced
     = spaced
  /\ trim spaced = spaced
  /\ cleanTitle input = spaced.
Proof.
  intros input spaced.
  split; [vm_compute; reflexivity|].
  split; [eexists; split; [reflexivity|vm_compute; reflexivity]|].
  split; [vm_compute; reflexivity|].
  split; [vm_compute; discriminate|].
  repeat split; vm_compute; reflexivity.
Qed.


(* ===================================================================== *)
(** * Further properties                                                  *)
(* ===================================================================== *)



(** ** The matcher keeps to its subject *)

Lemma reaches_refl s : reaches s s.
Proof. exists []. repeat split; auto. Qed.

Lemma reaches_trans s1 s2 s3 : reaches s1 s2 -> reaches s2 s3 -> reaches s1 s3.
Proof.
  intros (m1 & A1 & B1 & G1) (m2 & A2 & B2 & G2).
  exists (m1 ++ m2). split; [|split].
  - rewrite A1, A2. now rewrite <- app_assoc.
  - rewrite B2, B1, rev_app_distr. now rewrite <- app_assoc.
  - destruct G2 as [G2|(a & g & b & -> & G2)].
    + rewrite G2. destruct G1 as [G1|(a & g & b & -> & G1)]; [now left|].
      right. exists a, g, (b ++ m2). split; [|exact G1].
      now rewrite <- !app_assoc.
    + right. exists (m1 ++ a), g, b. split; [|exact G2].
      now rewrite <- !app_assoc.
Qed.

Lemma reaches_length s s' : reaches s s' -> (length (after s') <= length (after s))%nat.
Proof. intros (mid & -> & _). rewrite length_app. lia. Qed.

Lemma reaches_char s c rest :
  after s = c :: rest ->
  reaches s {| before := c :: before s; after := rest; group1 := group1 s |}.
Proof. intros H. exists [c]. simpl. rewrite H. auto. Qed.

Lemma reaches_group s s1 :
  reaches s s1 ->
  reaches s {| before := before s1; after := after s1;
               group1 := Some (consumed s s1) |}.
Proof.
  intros (mid & A & B & _). exists mid. simpl. repeat split; auto.
  right. exists [], mid, []. rewrite app_nil_r. split; [reflexivity|].
  unfold consumed. rewrite A. rewrite length_app.
  replace (length mid + length (after s1) - length (after s1))%nat
    with (length mid) by lia.
  now rewrite take_app_length.
Qed.

Lemma rmatch_reaches (r : Regex) :
  forall (A : Type) (s : MState) (k : MState -> option A) (x : A),
    rmatch r s k = Some x -> exists s', reaches s s' /\ k s' = Some x.
Proof.
  induction r as [| c | c | | items | items | r1 IH1 r2 IH2 | r1 IH1 r2 IH2
                  | r1 IH1 | | | r1 IH1 | r1 IH1 | r1 IH1];
    intros A s k x H; simpl in H.
  - eauto using reaches_refl.
  - destruct (after s) as [|d rest] eqn:E; [discriminate|].
    destruct (d =? c)%N; [|discriminate]. eauto using reaches_char.
  - destruct (after s) as [|d rest] eqn:E; [discriminate|].
    destruct (upper d =? upper c)%N; [|discriminate]. eauto using reaches_char.
  - destruct (after s) as [|d rest] eqn:E; [discriminate|].
    destruct (negb (is_line_terminator d)); [|discriminate]. eauto using reaches_char.
  - destruct (after s) as [|d rest] eqn:E; [discriminate|].
    destruct (in_class items d); [|discriminate]. eauto using reaches_char.
  - destruct (after s) as [|d rest] eqn:E; [discriminate|].
    destruct (negb (in_class items d)); [|discriminate]. eauto using reaches_char.
  - apply IH1 in H as (s1 & R1 & H). apply IH2 in H as (s2 & R2 & H).
    eauto using reaches_trans.
  - destruct (rmatch r1 s k) eqn:E.
    + injection H as ->. eauto.
    + eauto.
  - revert H. generalize (length (after s)). intros n. revert s.
    induction n as [|n IHn]; intros s H.
    + eauto using reaches_refl.
    + match type of H with
      | match ?m with _ => _ end = _ => destruct m eqn:E
      end.
      * injection H as ->. apply IH1 in E as (s1 & R1 & E).
        destruct (length (after s1) <? length (after s))%nat; [|discriminate].
        apply IHn in E as (s2 & R2 & E). eauto using reaches_trans.
      * eauto using reaches_refl.
  - destruct (before s); [|discriminate]. eauto using reaches_refl.
  - destruct (after s); [|discriminate]. eauto using reaches_refl.
  - apply IH1 in H as (s1 & R1 & H). eauto using reaches_group.
  - destruct (rmatch r1 s _); [|discriminate]. eauto using reaches_refl.
  - match type of H with
    | (if ?b then _ else _) = _ => destruct b
    end; [|discriminate]. eauto using reaches_refl.
Qed.



(** ** Searching and replacing *)

Lemma search_here r left right s1 :
  rmatch r (start_state left right) (fun s1 => Some s1) = Some s1 ->
  search r left right = Some (start_state left right, s1).
Proof. intros H. destruct right; simpl; unfold start_state in H; rewrite H; reflexivity. Qed.

Lemma search_next r left c right :
  rmatch r (start_state left (c :: right)) (fun s1 => Some s1) = None ->
  search r left (c :: right) = search r (c :: left) right.
Proof. intros H. simpl. unfold start_state in H. rewrite H. reflexivity. Qed.

Lemma search_end r left :
  rmatch r (start_state left []) (fun s1 => Some s1) = None ->
  search r left [] = None.
Proof. intros H. simpl. unfold start_state in H. rewrite H. reflexivity. Qed.

Lemma search_spec r right : forall left s0 s1,
  search r left right = Some (s0, s1) ->
  exists skipped,
    right = skipped ++ after s0
    /\ before s0 = rev skipped ++ left
    /\ group1 s0 = None
    /\ reaches s0 s1.
Proof.
  induction right as [|c right IH]; intros left s0 s1 H.
  - simpl in H.
    destruct (rmatch r _ _) as [s|] eqn:E; [|discriminate].
    injection H as <- <-. exists []. simpl. repeat split.
    apply rmatch_reaches in E as (s' & R & [= <-]). exact R.
  - simpl in H.
    destruct (rmatch r _ _) as [s|] eqn:E.
    + injection H as <- <-. exists []. simpl. repeat split.
      apply rmatch_reaches in E as (s' & R & [= <-]). exact R.
    + apply IH in H as (skipped & A & B & G & R).
      exists (c :: skipped). simpl. rewrite <- A, B, <- app_assoc. simpl. auto.
Qed.

(** the text a replacement puts in place of a match lies inside the match *)
Lemma expand_group_sublist s0 s1 mid :
  group1 s0 = None -> after s0 = mid ++ after s1 ->
  (group1 s1 = group1 s0 \/ exists a g b, mid = a ++ g ++ b /\ group1 s1 = Some g) ->
  expand RGroup1 s1 `sublist_of` mid.
Proof.
  intros G A [H|(a & g & b & -> & H)]; simpl; rewrite H.
  - rewrite G. apply sublist_nil_l.
  - apply sublist_inserts_l, sublist_inserts_r. reflexivity.
Qed.


Lemma expand_sublist rep s0 s1 :
  deleting rep -> group1 s0 = None -> reaches s0 s1 ->
  exists mid, after s0 = mid ++ after s1 /\ expand rep s1 `sublist_of` mid.
Proof.
  intros [-> | ->] G (mid & A & _ & H); exists mid; (split; [exact A|]).
  - apply sublist_nil_l.
  - eapply expand_group_sublist; eauto.
Qed.

Lemma replace_sublist r rep s : deleting rep -> replace r rep s `sublist_of` s.
Proof.
  intros Hrep. unfold replace.
  destruct (search r [] s) as [[s0 s1]|] eqn:E; [|reflexivity].
  apply search_spec in E as (skipped & A & B & G & R).
  destruct (expand_sublist rep s0 s1 Hrep G R) as (mid & A' & S).
  assert (Hs : s = skipped ++ mid ++ after s1) by (rewrite A, A'; reflexivity).
  rewrite B, app_nil_r, rev_involutive. rewrite Hs at 1.
  apply sublist_app; [reflexivity|]. apply sublist_app; [exact S|reflexivity].
Qed.

Lemma replace_all_from_sublist r rep : deleting rep ->
  forall fuel left right, replace_all_from fuel r rep left right `sublist_of` right.
Proof.
  intros Hrep. induction fuel as [|fuel IH]; intros left right; simpl; [reflexivity|].
  destruct (search r left right) as [[s0 s1]|] eqn:E; [|reflexivity].
  apply search_spec in E as (skipped & A & B & G & R).
  destruct (expand_sublist rep s0 s1 Hrep G R) as (mid & A' & S).
  assert (Hskip : take (length right - length (after s0)) right = skipped).
  { rewrite A. rewrite length_app.
    replace (length skipped + length (after s0) - length (after s0))%nat
      with (length skipped) by lia.
    apply take_app_length. }
  assert (Hr : right = skipped ++ mid ++ after s1)
    by (rewrite A, A'; reflexivity).
  rewrite Hskip. rewrite Hr at 1. clear Hskip Hr A.
  destruct (length (after s1) <? length (after s0))%nat.
  - apply sublist_app; [reflexivity|]. apply sublist_app; [exact S|apply IH].
  - destruct (after s1) as [|c rest].
    + apply sublist_app; [reflexivity|]. rewrite app_nil_r. exact S.
    + apply sublist_app; [reflexivity|]. apply sublist_app; [exact S|].
      apply sublist_skip, IH.
Qed.

Lemma replace_all_sublist r rep s : deleting rep -> replace_all r rep s `sublist_of` s.
Proof. intros. unfold replace_all. now apply replace_all_from_sublist. Qed.


Lemma replace_all_from_S fuel r rep left right :
  replace_all_from (S fuel) r rep left right =
  match search r left right with
  | None => right
  | Some (s0, s1) =>
      let skipped := take (length right - length (after s0)) right in
      if (length (after s1) <? length (after s0))%nat
      then skipped ++ expand rep s1
             ++ replace_all_from fuel r rep (before s1) (after s1)
      else match after s1 with
           | [] => skipped ++ expand rep s1
           | c :: rest =>
               skipped ++ expand rep s1 ++ c ::
                 replace_all_from fuel r rep (c :: before s1) rest
           end
  end.
Proof. reflexivity. Qed.

Lemma replace_all_from_skip fuel r rep left x rest :
  rmatch r (start_state left (x :: rest)) (fun s1 => Some s1) = None ->
  replace_all_from (S fuel) r rep left (x :: rest)
  = x :: replace_all_from (S fuel) r rep (x :: left) rest.
Proof.
  intros H. rewrite !replace_all_from_S, (search_next _ _ _ _ H).
  destruct (search r (x :: left) rest) as [[s0 s1]|] eqn:E; [|reflexivity].
  apply search_spec in E as (skipped & A & _).
  assert (L : (length (after s0) <= length rest)%nat)
    by (rewrite A, length_app; lia).
  cbn zeta. simpl length.
  replace (S (length rest) - length (after s0))%nat
    with (S (length rest - length (after s0))) by lia.
  simpl. destruct (length (after s1) <? length (after s0))%nat; [reflexivity|].
  destruct (after s1); reflexivity.
Qed.

Lemma replace_all_from_here fuel r rep left right s1 :
  rmatch r (start_state left right) (fun s1 => Some s1) = Some s1 ->
  (length (after s1) < length right)%nat ->
  replace_all_from (S fuel) r rep left right
  = expand rep s1 ++ replace_all_from fuel r rep (before s1) (after s1).
Proof.
  intros H L. rewrite replace_all_from_S, (search_here _ _ _ _ H). simpl.
  rewrite Nat.sub_diag. simpl.
  apply Nat.ltb_lt in L. rewrite L. reflexivity.
Qed.

Lemma replace_all_from_nil fuel r rep left :
  rmatch r (start_state left []) (fun s1 => Some s1) = None ->
  replace_all_from fuel r rep left [] = [].
Proof.
  intros H. destruct fuel; [reflexivity|].
  rewrite replace_all_from_S, (search_end _ _ H). reflexivity.
Qed.


Lemma finds_char_Lit u : finds_char u (Lit u).
Proof.
  split; [|split].
  - reflexivity.
  - intros left x rest Hx. simpl. apply N.eqb_neq in Hx. now rewrite Hx.
  - intros left rest. simpl. rewrite N.eqb_refl. eauto.
Qed.

Lemma star_total r (s : MState) :
  exists s1, rmatch (Star r) s (fun s1 => Some s1) = Some s1.
Proof.
  simpl. destruct (length (after s)); [eauto|].
  match goal with |- exists _, match ?m with _ => _ end = _ => destruct m end; eauto.
Qed.

Lemma finds_char_Plus_Lit u : finds_char u (Plus (Lit u)).
Proof.
  split; [|split].
  - reflexivity.
  - intros left x rest Hx. unfold Plus. simpl rmatch at 1.
    cbn [rmatch after start_state accepts_char].
    apply N.eqb_neq in Hx. now rewrite Hx.
  - intros left rest.
    destruct (star_total (Lit u)
                {| before := u :: left; after := rest; group1 := None |})
      as [s1 H].
    exists s1. split.
    + unfold Plus. cbn [rmatch after start_state accepts_char before group1].
      rewrite N.eqb_refl. exact H.
    + apply rmatch_reaches in H as (s' & R & [= <-]).
      apply reaches_length in R. exact R.
Qed.

Section CharReplacement.

Variables (u d : N) (r : Regex).
Hypothesis Hr : finds_char u r.

Lemma replace_char_length : forall n right fuel left,
  (length right <= n)%nat -> (length right < fuel)%nat ->
  (length (replace_all_from fuel r (RLit [d]) left right) <= length right)%nat.
Proof.
  destruct Hr as (Hnil & Hne & Heq).
  induction n as [|n IH]; intros right fuel left Hn Hf.
  - destruct right; [|simpl in Hn; lia]. now rewrite replace_all_from_nil.
  - destruct right as [|x rest]; [now rewrite replace_all_from_nil|].
    destruct fuel as [|fuel]; [lia|]. simpl in Hn, Hf.
    destruct (N.eq_dec x u) as [->|Hx].
    + destruct (Heq left rest) as (s1 & H & L).
      rewrite (replace_all_from_here _ _ _ _ _ _ H) by (simpl; lia).
      simpl.
      assert (IH' : (length (replace_all_from fuel r (RLit [d]) (before s1) (after s1))
                     <= length (after s1))%nat) by (apply IH; lia).
      lia.
    + rewrite replace_all_from_skip by now apply Hne.
      cbn [length].
      assert (IH' : (length (replace_all_from (S fuel) r (RLit [d]) (x :: left) rest)
                     <= length rest)%nat) by (apply IH; lia).
      lia.
Qed.

Lemma replace_char_free : d <> u -> forall n right fuel left,
  (length right <= n)%nat -> (length right < fuel)%nat ->
  Forall (fun c => c <> u) (replace_all_from fuel r (RLit [d]) left right).
Proof.
  intros Hd. destruct Hr as (Hnil & Hne & Heq).
  induction n as [|n IH]; intros right fuel left Hn Hf.
  - destruct right; [|simpl in Hn; lia]. now rewrite replace_all_from_nil.
  - destruct right as [|x rest]; [now rewrite replace_all_from_nil|].
    destruct fuel as [|fuel]; [lia|]. simpl in Hn, Hf.
    destruct (N.eq_dec x u) as [->|Hx].
    + destruct (Heq left rest) as (s1 & H & L).
      rewrite (replace_all_from_here _ _ _ _ _ _ H) by (simpl; lia).
      simpl. constructor; [exact Hd|]. apply IH; lia.
    + rewrite replace_all_from_skip by now apply Hne.
      constructor; [exact Hx|]. apply IH; lia.
Qed.

Lemma replace_char_absent : forall right fuel left,
  Forall (fun c => c <> u) right -> (0 < fuel)%nat ->
  replace_all_from fuel r (RLit [d]) left right = right.
Proof.
  destruct Hr as (Hnil & Hne & Heq).
  induction right as [|x rest IH]; intros fuel left Hall Hf.
  - now rewrite replace_all_from_nil.
  - destruct fuel as [|fuel]; [lia|]. apply Forall_cons in Hall as [Hx Hall].
    rewrite replace_all_from_skip by now apply Hne.
    f_equal. apply IH; [exact Hall|lia].
Qed.

End CharReplacement.


(** ** Trimming and the sanitizer *)

Lemma trim_start_spec (s : JsString) :
  exists pre, s = pre ++ trim_start s
    /\ Forall (fun c => strippable c = true) pre
    /\ (forall c, head (trim_start s) = Some c -> strippable c = false).
Proof.
  induction s as [|x s (pre & E & P & H)]; simpl.
  - exists []. repeat split; [constructor|discriminate].
  - destruct (strippable x) eqn:S.
    + exists (x :: pre). simpl. rewrite <- E. repeat split; [|exact H].
      constructor; assumption.
    + exists []. repeat split; [constructor|]. simpl. congruence.
Qed.

Lemma trim_end_spec (s : JsString) :
  exists suf, s = trim_end s ++ suf
    /\ Forall (fun c => strippable c = true) suf
    /\ (forall c, last (trim_end s) = Some c -> strippable c = false).
Proof.
  unfold trim_end. destruct (trim_start_spec (rev s)) as (pre & E & P & H).
  exists (rev pre). split; [|split].
  - rewrite <- rev_app_distr, <- E. now rewrite rev_involutive.
  - apply Forall_forall. intros c Hc. rewrite Forall_forall in P. apply P.
    apply list_elem_of_In. apply list_elem_of_In in Hc. now apply in_rev.
  - intros c Hc. apply H.
    destruct (trim_start (rev s)) as [|y q]; [discriminate|].
    simpl in Hc. rewrite last_snoc in Hc. exact Hc.
Qed.

Lemma trim_end_head (s : JsString) c :
  head s = Some c -> strippable c = false -> head (trim_end s) = Some c.
Proof.
  intros Hh Hc. destruct s as [|x s]; [discriminate|]. injection Hh as ->.
  destruct (trim_end_spec (c :: s)) as (suf & E & P & _).
  destruct (trim_end (c :: s)) as [|y q].
  - simpl in E. rewrite <- E in P. apply Forall_cons in P as [P _]. congruence.
  - simpl in E. injection E as -> _. reflexivity.
Qed.

Lemma trim_spec (s : JsString) :
  (forall c, head (trim s) = Some c -> strippable c = false)
  /\ (forall c, last (trim s) = Some c -> strippable c = false)
  /\ trim s `sublist_of` s.
Proof.
  unfold trim.
  destruct (trim_start_spec s) as (pre & E & _ & Hh).
  destruct (trim_end_spec (trim_start s)) as (suf & E' & _ & Hl).
  split; [|split].
  - intros c Hc. destruct (head (trim_start s)) as [x|] eqn:Hx.
    + pose proof (Hh x eq_refl) as Sx.
      rewrite (trim_end_head _ _ Hx Sx) in Hc. congruence.
    + apply head_None in Hx. rewrite Hx in Hc. discriminate.
  - exact Hl.
  - rewrite E at 2. rewrite E' at 2.
    apply sublist_inserts_l, sublist_inserts_r. reflexivity.
Qed.

Lemma trim_fixed (s : JsString) :
  (forall c, head s = Some c -> strippable c = false) ->
  (forall c, last s = Some c -> strippable c = false) ->
  trim s = s.
Proof.
  intros Hh Hl. unfold trim.
  assert (E : trim_start s = s).
  { destruct s as [|x s]; [reflexivity|]. simpl. now rewrite (Hh x eq_refl). }
  rewrite E. unfold trim_end.
  destruct (rev s) as [|y q] eqn:R.
  - simpl. rewrite <- (rev_involutive s), R. reflexivity.
  - assert (Hy : last s = Some y).
    { rewrite <- (rev_involutive s), R. simpl. apply last_snoc. }
    simpl. rewrite (Hl y Hy). rewrite <- R. apply rev_involutive.
Qed.

Lemma trim_idempotent (s : JsString) : trim (trim s) = trim s.
Proof. destruct (trim_spec s) as (H1 & H2 & _). now apply trim_fixed. Qed.

Lemma replace_all_length_Lit u d s :
  (length (replace_all (Lit u) (RLit [d]) s) <= length s)%nat.
Proof.
  unfold replace_all.
  apply (replace_char_length u d (Lit u) (finds_char_Lit u) (length s)); lia.
Qed.

Lemma replace_all_free_Lit u d s :
  d <> u -> Forall (fun c => c <> u) (replace_all (Lit u) (RLit [d]) s).
Proof.
  intros Hd. unfold replace_all.
  apply (replace_char_free u d (Lit u) (finds_char_Lit u) Hd (length s)); lia.
Qed.



Lemma cleanTitle_sublist (rawTitle : JsString) :
  cleanTitle rawTitle `sublist_of` unscored rawTitle.
Proof.
  unfold cleanTitle. cbv zeta. fold (undotted rawTitle). fold (unscored rawTitle).
  etransitivity; [apply trim_spec|].
  repeat (etransitivity;
          [first [apply replace_all_sublist | apply replace_sublist];
           (left; reflexivity) || (right; reflexivity)|]).
  reflexivity.
Qed.

Lemma cleanTitle_never_longer (rawTitle : JsString) :
  (length (cleanTitle rawTitle) <= length rawTitle)%nat.
Proof.
  pose proof (sublist_length _ _ (cleanTitle_sublist rawTitle)) as H.
  assert (H1 : (length (unscored rawTitle) <= length (undotted rawTitle))%nat)
    by apply replace_all_length_Lit.
  assert (H2 : (length (undotted rawTitle) <= length rawTitle)%nat).
  { unfold undotted. destruct (_ && _); [apply replace_all_length_Lit|lia]. }
  lia.
Qed.

(** X11: the output of the sanitizer holds no underscore, whatever the raw
    title: the second step turns each one into a space and no later step
    brings one in. *)
Theorem cleanTitle_no_underscore (rawTitle : JsString) :
  Forall (fun c => c <> chr "_") (cleanTitle rawTitle).
Proof.
  assert (H : Forall (fun c => c <> chr "_") (unscored rawTitle)).
  { apply replace_all_free_Lit. discriminate. }
  rewrite Forall_forall in *. intros c Hc. apply H.
  eapply elem_of_sublist; [exact Hc|apply cleanTitle_sublist].
Qed.

(** X9: the output of the sanitizer neither starts nor ends with a white
    space or line terminator character, and trimming it again changes
    nothing. *)
Theorem cleanTitle_trimmed (rawTitle : JsString) :
  (forall c, head (cleanTitle rawTitle) = Some c -> strippable c = false)
  /\ (forall c, last (cleanTitle rawTitle) = Some c -> strippable c = false)
  /\ trim (cleanTitle rawTitle) = cleanTitle rawTitle.
Proof.
  unfold cleanTitle. cbv zeta.
  split; [apply trim_spec|]. split; [apply trim_spec|apply trim_idempotent].
Qed.



(** ** Underscores *)

Lemma normalize_no_underscore (input : JsString) : no_underscore (normalize input).
Proof.
  unfold normalize, replace_all.
  apply (replace_char_free (chr "_") (chr " ") _ (finds_char_Plus_Lit _)
           ltac:(discriminate) (length input)); lia.
Qed.

Lemma normalize_length (input : JsString) :
  (length (normalize input) <= length input)%nat.
Proof.
  unfold normalize, replace_all.
  apply (replace_char_length (chr "_") (chr " ") _ (finds_char_Plus_Lit _)
           (length input)); lia.
Qed.

Lemma normalize_fixed (input : JsString) :
  no_underscore input -> normalize input = input.
Proof.
  intros H. unfold normalize, replace_all.
  apply (replace_char_absent (chr "_") (chr " ") _ (finds_char_Plus_Lit _)); [exact H|lia].
Qed.

Lemma normalize_idempotent (input : JsString) :
  normalize (normalize input) = normalize input.
Proof. apply normalize_fixed, normalize_no_underscore. Qed.

Lemma slice_sublist (s : JsString) a b : slice s a b `sublist_of` s.
Proof. unfold slice. etransitivity; [apply sublist_take|apply sublist_drop]. Qed.

Lemma slice_from_sublist (s : JsString) a : slice_from s a `sublist_of` s.
Proof. apply sublist_drop. Qed.

Lemma Forall_sublist {A} (P : A -> Prop) (l1 l2 : list A) :
  l1 `sublist_of` l2 -> Forall P l2 -> Forall P l1.
Proof.
  rewrite !Forall_forall. intros S H x Hx. apply H. eapply elem_of_sublist; eauto.
Qed.

Lemma step_title_chars (P : N -> Prop) handler st st' :
  step handler st = Ok st' -> Forall P (title st) -> Forall P (title st').
Proof.
  unfold step.
  destruct (call handler (title st) (result st) (matched st)) as [[[mr r] m]|e];
    simpl; [|discriminate].
  intros [= <-] H. simpl. destruct mr as [mr|]; [|exact H].
  destruct (MatchResult.remove mr); [|exact H].
  unfold splice. destruct (MatchResult.matchIndex mr) as [i|].
  - apply Forall_app. split.
    + eapply Forall_sublist; [apply slice_sublist|exact H].
    + eapply Forall_sublist; [apply slice_from_sublist|exact H].
  - apply Forall_app. split; exact H.
Qed.

Lemma titles_seen_chars (P : N -> Prop) handlers : forall st,
  Forall P (title st) -> Forall (Forall P) (titles_seen handlers st).
Proof.
  induction handlers as [|h hs IH]; intros st H; simpl; [constructor|].
  constructor; [exact H|].
  destruct (step h st) as [st'|e] eqn:E; [|constructor].
  apply IH. eapply step_title_chars; eauto.
Qed.

(** X13: whatever the handlers are and do, each of them is called with a
    working title that holds no underscore. *)
Theorem handlers_never_see_an_underscore
    (handlers : list Handler) (input : JsString) :
  Forall no_underscore (titles_seen handlers (init (normalize input))).
Proof. apply titles_seen_chars. apply normalize_no_underscore. Qed.

(** ** The leading tag expression *)

Lemma star_run items : forall chars tail left g A (k : MState -> option A) x,
  Forall (fun c => in_class items c = false) chars ->
  match tail with [] => True | t :: _ => in_class items t = true end ->
  k {| before := rev chars ++ left; after := tail; group1 := g |} = Some x ->
  rmatch (Star (NotClass items))
         {| before := left; after := chars ++ tail; group1 := g |} k = Some x.
Proof.
  induction chars as [|c chars IH]; intros tail left g A k x Hrun Htail Hk.
  - simpl in *. destruct tail as [|t tail]; [exact Hk|].
    simpl. rewrite Htail. simpl. exact Hk.
  - apply Forall_cons in Hrun as [Hc Hrun].
    specialize (IH tail (c :: left) g A k x Hrun Htail).
    simpl in Hk. rewrite <- app_assoc in Hk. simpl in Hk. specialize (IH Hk).
    simpl in IH.
    simpl. rewrite Hc. simpl.
    assert (L : (length (chars ++ tail) <? S (length (chars ++ tail)))%nat = true)
      by (apply Nat.ltb_lt; lia).
    rewrite L. rewrite IH. reflexivity.
Qed.


Lemma before_title_tag (content rest : JsString) :
  content <> [] ->
  Forall (fun c => in_class BRACKETS c = false) content ->
  exec BEFORE_TITLE_REGEX (chr "[" :: content ++ chr "]" :: rest)
  = Some {| index := Some 0%nat; match_0 := chr "[" :: content ++ [chr "]"];
            match_1 := Some content |}.
Proof.
  intros Hne Hall. destruct content as [|c content]; [congruence|].
  apply Forall_cons in Hall as [Hc Hall].
  unfold exec.
  erewrite search_here.
  2:{ unfold BEFORE_TITLE_REGEX, Cat, Plus, start_state.
      cbn [rmatch before after group1 accepts_char app].
      rewrite N.eqb_refl. fold BRACKETS. rewrite Hc.
      cbn [negb before after group1].
      apply (star_run BRACKETS content (chr "]" :: rest)); [exact Hall|reflexivity|].
      cbn [rmatch before after group1 accepts_char]. rewrite N.eqb_refl.
      reflexivity. }
  unfold start_state, consumed. cbn [before after group1].
  f_equal. f_equal.
  - replace (chr "[" :: (c :: content) ++ chr "]" :: rest)
      with ((chr "[" :: (c :: content) ++ [chr "]"]) ++ rest)
      by (simpl; rewrite <- app_assoc; reflexivity).
    apply take_app_length'. rewrite length_app. lia.
  - f_equal. apply (take_app_length' (c :: content)).
    cbn [length]. rewrite length_app. cbn [length]. lia.
Qed.

Lemma search_anchored r right : forall left,
  left <> [] -> search (Seq Bol r) left right = None.
Proof.
  induction right as [|c right IH]; intros left Hl; simpl;
    destruct left; try congruence.
  apply IH. discriminate.
Qed.

Lemma before_title_absent (title : JsString) :
  head title <> Some (chr "[") -> exec BEFORE_TITLE_REGEX title = None.
Proof.
  intros H. unfold exec.
  assert (E : search BEFORE_TITLE_REGEX [] title = None).
  { unfold BEFORE_TITLE_REGEX, Cat. destruct title as [|c title].
    - reflexivity.
    - rewrite search_next.
      + apply search_anchored. discriminate.
      + unfold start_state. cbn [rmatch before after accepts_char].
        destruct (c =? chr "[")%N eqn:Ec; [|reflexivity].
        apply N.eqb_eq in Ec. subst. now destruct H. }
  now rewrite E.
Qed.

(** ** The sanitizer, character by character *)

Lemma replace_all_from_Lit_map (u d : N) : forall right fuel left,
  (length right < fuel)%nat ->
  replace_all_from fuel (Lit u) (RLit [d]) left right
  = map (fun x => if (x =? u)%N then d else x) right.
Proof.
  induction right as [|x rest IH]; intros fuel left Hf.
  - now rewrite replace_all_from_nil.
  - destruct fuel as [|fuel]; [lia|]. simpl in Hf. cbn [map].
    destruct (x =? u)%N eqn:E.
    + apply N.eqb_eq in E. subst x.
      rewrite (replace_all_from_here _ _ _ _ _
                 {| before := u :: left; after := rest; group1 := None |}).
      * simpl. f_equal. apply IH. lia.
      * unfold start_state. simpl. now rewrite N.eqb_refl.
      * simpl. lia.
    + rewrite replace_all_from_skip.
      * f_equal. apply IH. lia.
      * unfold start_state. simpl. now rewrite E.
Qed.

Lemma replace_all_Lit_map (u d : N) (s : JsString) :
  replace_all (Lit u) (RLit [d]) s = map (fun x => if (x =? u)%N then d else x) s.
Proof. unfold replace_all. apply replace_all_from_Lit_map. lia. Qed.

Lemma spaced_out_dots (c : N) :
  (if ((if (c =? chr ".")%N then chr " " else c) =? chr "_")%N
   then chr " "
   else if (c =? chr ".")%N then chr " " else c)
  = spaced_out true c.
Proof.
  unfold spaced_out.
  change (chr ".") with 46%N. change (chr "_") with 95%N. change (chr " ") with 32%N.
  destruct (N.eqb_spec c 46) as [->|H1]; [reflexivity|].
  destruct (N.eqb_spec c 95) as [->|H2]; reflexivity.
Qed.

Lemma spaced_out_no_dots (c : N) :
  (if (c =? chr "_")%N then chr " " else c) = spaced_out false c.
Proof. unfold spaced_out. now rewrite andb_false_l, orb_false_r. Qed.

(** X10: the sanitizer only deletes characters, after turning every
    underscore, and in a title without space every dot, into a space: its
    output is a subsequence of the raw title so rewritten, and never longer
    than the raw title.  The dots are rewritten exactly when the raw title
    holds no space. *)
Theorem cleanTitle_only_deletes (rawTitle : JsString) :
  exists dots,
    cleanTitle rawTitle `sublist_of` map (spaced_out dots) rawTitle
    /\ (dots = true -> indexOf rawTitle (str " ") = -1)
    /\ (length (cleanTitle rawTitle) <= length rawTitle)%nat
    /\ (dots = false ->
        indexOf rawTitle (str " ") <> -1 \/ indexOf rawTitle (str ".") = -1).
Proof.
  assert (H : exists dots,
             unscored rawTitle = map (spaced_out dots) rawTitle
             /\ (dots = true -> indexOf rawTitle (str " ") = -1)
             /\ (dots = false ->
                 indexOf rawTitle (str " ") <> -1
                 \/ indexOf rawTitle (str ".") = -1)).
  { unfold unscored, undotted.
    destruct (indexOf rawTitle (str " ") =? -1) eqn:E; simpl.
    - destruct (indexOf rawTitle (str ".") =? -1) eqn:E'; simpl.
      + exists false. split; [|split; [discriminate|]].
        * change (str " ") with [chr " "].
          rewrite replace_all_Lit_map. apply map_ext. intros c.
          apply spaced_out_no_dots.
        * intros _. right. now apply Z.eqb_eq.
      + exists true. split; [|split; [intros _; now apply Z.eqb_eq|discriminate]].
        change (str " ") with [chr " "].
        rewrite !replace_all_Lit_map, map_map. apply map_ext. intros c.
        apply spaced_out_dots.
    - exists false. split; [|split; [discriminate|]].
      + change (str " ") with [chr " "].
        rewrite replace_all_Lit_map. apply map_ext. intros c.
        apply spaced_out_no_dots.
      + intros _. left. now apply Z.eqb_neq. }
  destruct H as (dots & E & Hd & Hn). exists dots. split; [|split; [|split]].
  - rewrite <- E. apply cleanTitle_sublist.
  - exact Hd.
  - apply cleanTitle_never_longer.
  - exact Hn.
Qed.


(** ** More on the loop of [parse] *)

Lemma slice_whole (s : JsString) : slice s 0 (len s) = s.
Proof.
  rewrite slice_prefix by apply len_nonneg. unfold len. rewrite Nat2Z.id.
  apply take_ge. lia.
Qed.


Lemma states_app (hs1 hs2 : list Handler) (st : State) :
  states (hs1 ++ hs2) st
  = states hs1 st ++ match run hs1 st with
                     | Ok st1 => states hs2 st1
                     | Throw _ => []
                     end.
Proof.
  revert st. induction hs1 as [|h hs1 IH]; intros st; simpl; [reflexivity|].
  destruct (step h st) as [st'|e]; simpl; [|reflexivity].
  now rewrite IH.
Qed.






(** ** What a pattern handler changes *)





(** X3: when a pattern handler returns a match result for a field that is
    already in [result] and in [matched], its transformer has received the
    previous value, the [result] entry is replaced, and [matched] is left as
    it was; this takes [skipIfAlreadyFound] false or a falsy previous
    value. *)
Theorem later_handler_overwrites_result_but_not_matched
    (name : JsString) (regExp : RegExp) (transformer : Transformer)
    (options : Options.t) (title : JsString) (result : Result)
    (matched : MatchedMap) (previous : Value) (first : Matched.entry)
    (m : MatchResult.t) (result' : Result) (matched' : MatchedMap) :
  own result !! name = Some previous ->
  matched !! name = Some first ->
  call (createHandlerFromRegExp name regExp transformer options)
       title result matched = Ok (Some m, result', matched') ->
  exists match_ v,
    String_match title regExp = Some match_
    /\ transformer (cleanMatch_or_rawMatch match_) previous = Ok v
    /\ own result' !! name = Some (or_else (Options.value options) v)
    /\ matched' = matched
    /\ (Options.skipIfAlreadyFound options = false \/ truthy previous = false).
Proof.
  intros Hr Hm H.
  apply handler_accepts_inv in H as (match_ & v & (E & Hmatch & _ & Htr & _) & -> & -> & _).
  exists match_, v. unfold transformed in Htr.
  rewrite (get_own _ _ _ Hr) in *.
  split; [exact Hmatch|]. split; [exact Htr|].
  split; [eapply own_set_own; exact Hr|].
  split; [eapply record_match_own; exact Hm|].
  destruct (truthy previous); [now left|now right].
Qed.

Lemma later_handler_overwrites_result_but_not_matched_witness :
  let result : Result :=
    mkObj (<[ str "year" := VStr (str "1999") ]> ∅) Object_prototype in
  let matched : MatchedMap :=
    <[ str "year" := Matched.mk (str "1999") (Some 0) ]> ∅ in
  exists match_ v,
    String_match (str "Movie 2020") Examples.DIGITS = Some match_
    /\ Examples.identity (cleanMatch_or_rawMatch match_) (VStr (str "1999")) = Ok v
    /\ own (set result (str "year") (VStr (str "2020"))) !! str "year"
       = Some (or_else VUndefined v)
    /\ matched = matched
    /\ (false = false \/ truthy (VStr (str "1999")) = false).
Proof.
  intros result matched.
  refine (later_handler_overwrites_result_but_not_matched
            (str "year") Examples.DIGITS Examples.identity
            (Options.mk false false false (Some []) false VUndefined)
            (str "Movie 2020") result matched (VStr (str "1999"))
            (Matched.mk (str "1999") (Some 0))
            (MatchResult.mk (str "2020") (Some 6) false false)
            (set result (str "year") (VStr (str "2020"))) matched _ _ _).
  - apply lookup_insert_eq.
  - apply lookup_insert_eq.
  - vm_compute. reflexivity.
Defined.

(** X4: when the expression does not match the working title, or matches
    an empty text, or the transformer returns a falsy value (and
    [skipIfBefore] is an array), the invocation of the pattern handler
    changes nothing: not the result map, not the matched registry, not the
    working title, not the end boundary. *)
Theorem rejected_match_changes_nothing
    (name : JsString) (regExp : RegExp) (transformer : Transformer)
    (options : Options.t) (st : State) :
  String_match (title st) regExp = None
  \/ (exists match_,
        String_match (title st) regExp = Some match_
        /\ (match_0 match_ = []
            \/ exists v,
                 transformer (cleanMatch_or_rawMatch match_)
                             (get (result st) name) = Ok v
                 /\ truthy v = false
                 /\ is_Some (Options.skipIfBefore options))) ->
  step (createHandlerFromRegExp name regExp transformer options) st = Ok st.
Proof.
  intros H.
  rewrite (step_null _ st (result st) (matched st)).
  - destruct st; reflexivity.
  - apply handler_rejects. exact H.
Qed.

Lemma rejected_match_changes_nothing_witness :
  step (createHandlerFromRegExp (str "year") Examples.DIGITS
          (fun _ _ => Ok (VBool false)) DEFAULT_OPTIONS)
       (init (str "Movie 2020"))
  = Ok (init (str "Movie 2020")).
Proof.
  apply rejected_match_changes_nothing. right.
  exists (mkRegExpMatch (Some 6%nat) (str "2020") None). split.
  - vm_compute. reflexivity.
  - right. exists (VBool false). split; [reflexivity|]. split; [reflexivity|].
    eexists. reflexivity.
Defined.

(** X5: when no handler of a registry of pattern handlers finds its
    expression in the normalized input (in particular when the registry is
    empty), [parse] returns the title alone, the sanitized normalized
    input. *)
Theorem parse_without_matches (handlers : list Handler) (input : JsString) :
  Forall (finds_nothing (normalize input)) handlers ->
  parse handlers input
  = Ok {| own := {[ str "title" := VStr (cleanTitle (normalize input)) ]};
          proto := Object_prototype |}.
Proof.
  intros Hall. unfold parse.
  assert (Hrun : run handlers (init (normalize input)) = Ok (init (normalize input))).
  { induction Hall as [|h hs (name & regExp & tr & opts & -> & Hnone) _ IH];
      [reflexivity|].
    simpl. rewrite rejected_match_changes_nothing by (left; exact Hnone).
    exact IH. }
  rewrite Hrun. simpl. rewrite slice_whole. reflexivity.
Qed.

Lemma parse_without_matches_witness :
  parse [Examples.year; Examples.resolution] (str "The_Movie")
  = Ok {| own := {[ str "title"
                    := VStr (cleanTitle (normalize (str "The_Movie"))) ]};
          proto := Object_prototype |}.
Proof.
  apply parse_without_matches.
  repeat constructor; unfold finds_nothing.
  - exists (str "year"), Examples.DIGITS, Examples.identity, DEFAULT_OPTIONS.
    split; [reflexivity|vm_compute; reflexivity].
  - exists (str "resolution"), Examples.DIGITS_P, Examples.identity, DEFAULT_OPTIONS.
    split; [reflexivity|vm_compute; reflexivity].
Defined.

(** ** The [skipIfBefore] option *)

(** X6: with a candidate match at hand, a pattern handler is a no-op when
    some field listed in its [skipIfBefore] array is recorded in the
    matched registry at an index greater than the candidate's start index
    (it stores nothing and returns no match where the same handler with an
    empty list returns; it throws what that one throws); otherwise it
    behaves as the same handler with an empty list. *)
Theorem skipIfBefore_skips_exactly_before_a_listed_field
    (name : JsString) (regExp : RegExp) (transformer : Transformer)
    (options : Options.t) (groups : list JsString) (title : JsString)
    (result : Result) (matched : MatchedMap) :
  let on := createHandlerFromRegExp name regExp transformer options in
  let off := createHandlerFromRegExp name regExp transformer
               (with_skipIfBefore [] options) in
  Options.skipIfBefore options = Some groups ->
  (String_match title regExp = None ->
   call on title result matched = call off title result matched)
  /\ (forall match_, String_match title regExp = Some match_ ->
        (before_listed matched groups (match_index match_) ->
         match call off title result matched with
         | Ok _ => call on title result matched = Ok (None, result, matched)
         | Throw e => call on title result matched = Throw e
         end)
        /\ (~ before_listed matched groups (match_index match_) ->
            call on title result matched = call off title result matched)).
Proof.
  intros on off Hg.
  assert (Hoff : forall index,
            isSkipIfBefore (with_skipIfBefore [] options) matched index = Ok false)
    by reflexivity.
  split.
  - intros H. unfold on, off. rewrite !call_pattern_handler, H. reflexivity.
  - intros match_ Hmatch. split.
    + intros Hcond. apply (isSkipIfBefore_true_iff options) in Hcond; [|exact Hg].
      unfold on, off. rewrite !call_pattern_handler, Hmatch, Hcond, Hoff. simpl.
      destruct (_ && _); [reflexivity|].
      destruct (nonempty _); [|reflexivity].
      destruct (transformed _ _ _ _); [|reflexivity].
      rewrite andb_false_r. now destruct (_ && _).
    + intros Hcond.
      unfold on, off.
      rewrite !call_pattern_handler, Hmatch, Hoff.
      rewrite (isSkipIfBefore_false options matched _ groups Hg Hcond).
      reflexivity.
Qed.

Lemma skipIfBefore_skips_exactly_before_a_listed_field_witness :
  let matched : MatchedMap :=
    <[ str "resolution" := Matched.mk (str "1080p") (Some 11) ]> ∅ in
  call (createHandlerFromRegExp (str "year") Examples.DIGITS Examples.identity
          MoreExamples.year_after_resolution)
       (str "2020 Movie 1080p") empty_object matched
  = Ok (None, empty_object, matched).
Proof.
  intros matched.
  refine (proj1 (proj2 (skipIfBefore_skips_exactly_before_a_listed_field
            (str "year") Examples.DIGITS Examples.identity
            MoreExamples.year_after_resolution [str "resolution"]
            (str "2020 Movie 1080p") empty_object matched eq_refl)
            (mkRegExpMatch (Some 0%nat) (str "2020") None) eq_refl) _).
  exists (str "resolution"), (Matched.mk (str "1080p") (Some 11)).
  split; [now left|]. split; [apply lookup_insert_eq|].
  exists 0, 11. split; [reflexivity|]. split; [reflexivity|lia].
Defined.

(** ** The leading bracket tag *)

Lemma isBeforeTitle_tag (content rest rawMatch : JsString) :
  content <> [] ->
  Forall (fun c => in_class BRACKETS c = false) content ->
  isBeforeTitle (chr "[" :: content ++ chr "]" :: rest) rawMatch
  = includes content rawMatch.
Proof.
  intros H1 H2. unfold isBeforeTitle. now rewrite before_title_tag.
Qed.

Lemma isBeforeTitle_absent (title rawMatch : JsString) :
  head title <> Some (chr "[") -> isBeforeTitle title rawMatch = false.
Proof. intros H. unfold isBeforeTitle. now rewrite before_title_absent. Qed.

(** X7: for a match result of a pattern handler: when the working title
    starts with a tag [[content]] (content non-empty and free of brackets),
    the match is exempt from the title exactly when its text occurs in the
    content or the handler's [skipFromTitle] option is set; when the working
    title does not start with an opening bracket, exactly when the option is
    set.  An exempt match that is not removed leaves the working title and
    the end boundary as they were. *)
Theorem match_inside_leading_tag_is_exempt
    (name : JsString) (regExp : RegExp) (transformer : Transformer)
    (options : Options.t) (st : State)
    (m : MatchResult.t) (result' : Result) (matched' : MatchedMap) :
  let handler := createHandlerFromRegExp name regExp transformer options in
  call handler (title st) (result st) (matched st) = Ok (Some m, result', matched') ->
  (forall content rest,
     title st = chr "[" :: content ++ chr "]" :: rest ->
     content <> [] ->
     Forall (fun c => c <> chr "[" /\ c <> chr "]") content ->
     MatchResult.skipFromTitle m
     = includes content (MatchResult.rawMatch m) || Options.skipFromTitle options)
  /\ (head (title st) <> Some (chr "[") ->
      MatchResult.skipFromTitle m = Options.skipFromTitle options)
  /\ (MatchResult.skipFromTitle m = true -> Options.remove options = false ->
      step handler st
      = Ok {| title := title st; result := result'; matched := matched';
              endOfTitle := endOfTitle st |}).
Proof.
  intros handler Hcall.
  pose proof Hcall as Hinv.
  apply handler_accepts_inv in Hinv as (match_ & v & _ & _ & _ & Hm).
  split; [|split].
  - intros content rest Ht Hne Hall. rewrite Hm. simpl. rewrite Ht.
    rewrite isBeforeTitle_tag; [reflexivity|exact Hne|].
    eapply Forall_impl; [exact Hall|]. intros c [H1 H2]. cbv beta.
    apply N.eqb_neq in H1, H2. unfold in_class, BRACKETS.
    cbn [existsb in_item]. now rewrite H1, H2.
  - intros Hhead. rewrite Hm. simpl. now rewrite isBeforeTitle_absent.
  - intros Hskip Hrem. unfold step. rewrite Hcall. simpl.
    assert (Hr : MatchResult.remove m = false) by (rewrite Hm; exact Hrem).
    rewrite Hskip, Hr. simpl. now destruct (MatchResult.matchIndex m).
Qed.

Lemma match_inside_leading_tag_is_exempt_witness :
  exists st',
    step Examples.year (init (str "[Grp 2020] Movie")) = Ok st'
    /\ endOfTitle st' = 16
    /\ own (result st') !! str "year" = Some (VStr (str "2020")).
Proof.
  pose proof (match_inside_leading_tag_is_exempt
                (str "year") Examples.DIGITS Examples.identity DEFAULT_OPTIONS
                (init (str "[Grp 2020] Movie"))
                (MatchResult.mk (str "2020") (Some 5) false true)
                (mkObj (<[ str "year" := VStr (str "2020") ]> ∅) Object_prototype)
                (<[ str "year" := Matched.mk (str "2020") (Some 5) ]> ∅)) as H.
  destruct H as (_ & _ & H); [vm_compute; reflexivity|].
  eexists. split; [apply H; reflexivity|]. split; [reflexivity|].
  apply lookup_insert_eq.
Defined.

(** ** Errors in handlers *)

(** X8: when a handler throws, [parse] throws the same exception, whatever
    handlers are registered after it. *)
Theorem parse_stops_at_the_first_throw
    (pre post : list Handler) (handler : Handler) (input : JsString)
    (st : State) (e : Exception) :
  run pre (init (normalize input)) = Ok st ->
  call handler (title st) (result st) (matched st) = Throw e ->
  parse (pre ++ handler :: post) input = Throw e.
Proof.
  intros Hpre Hcall. unfold parse. rewrite run_app, Hpre. simpl.
  unfold step. rewrite Hcall. reflexivity.
Qed.

Lemma parse_stops_at_the_first_throw_witness :
  parse ([Examples.year] ++ MoreExamples.thrower :: [Examples.resolution])
        (str "Movie 2020 1080p")
  = Throw (Thrown VNull).
Proof.
  refine (parse_stops_at_the_first_throw [Examples.year] [Examples.resolution]
            MoreExamples.thrower (str "Movie 2020 1080p")
            (mkState (str "Movie 2020 1080p")
               (mkObj (<[ str "year" := VStr (str "2020") ]> ∅) Object_prototype)
               (<[ str "year" := Matched.mk (str "2020") (Some 6) ]> ∅) 6)
            (Thrown VNull) _ _).
  - vm_compute. reflexivity.
  - reflexivity.
Defined.

(** ** Normalization *)

(** X12: the pre-pass of [parse] leaves no underscore, never lengthens
    the input, leaves an input without underscore as it is, and does
    nothing when applied twice; so [parse] returns the same for an input
    and for its normalized form. *)
Theorem normalize_squeezes_underscores (input : JsString) :
  no_underscore (normalize input)
  /\ (length (normalize input) <= length input)%nat
  /\ (no_underscore input -> normalize input = input)
  /\ normalize (normalize input) = normalize input
  /\ (forall handlers, parse handlers (normalize input) = parse handlers input).
Proof.
  split; [apply normalize_no_underscore|]. split; [apply normalize_length|].
  split; [apply normalize_fixed|]. split; [apply normalize_idempotent|].
  intros handlers. unfold parse. now rewrite normalize_idempotent.
Qed.

(** ** Lengths *)








(** ** Registration and the order of the handlers *)

(** X15: a call of [addHandler] that does not throw appends exactly one
    handler after those already registered; in [parse] the earlier handlers
    run as before and the new one runs last, on the state they leave. *)
Theorem registered_handler_runs_last
    (handlers : list Handler) (handlerName : NameArg) (handler : HandlerArg)
    (transformer : TransformerArg) (options : option Options.partial)
    (handlers' : list Handler) :
  addHandler handlers handlerName handler transformer options = Ok handlers' ->
  exists h,
    handlers' = handlers ++ [h]
    /\ (forall st, run handlers' st = (st1 ← run handlers st; step h st1))
    /\ (forall st, states handlers st `prefix_of` states handlers' st).
Proof.
  intros H.
  assert (E : exists h, handlers' = handlers ++ [h]).
  { destruct handler, handlerName; simpl in H; try discriminate;
      injection H as <-; eauto. }
  destruct E as [h ->]. exists h. split; [reflexivity|]. split.
  - intros st. rewrite run_app. destruct (run handlers st) as [st1|e]; simpl;
      [|reflexivity].
    now destruct (step h st1).
  - intros st. rewrite states_app. eexists. reflexivity.
Qed.

Lemma registered_handler_runs_last_witness :
  exists h,
    [Examples.year; Examples.resolution] = [Examples.year] ++ [h]
    /\ (forall st, run [Examples.year; Examples.resolution] st
                   = (st1 ← run [Examples.year] st; step h st1))
    /\ (forall st, states [Examples.year] st
                   `prefix_of` states [Examples.year; Examples.resolution] st).
Proof.
  apply (registered_handler_runs_last [Examples.year]
           (name_string (str "resolution")) (handler_regexp Examples.DIGITS_P)
           (transformer_function Examples.identity) None).
  reflexivity.
Defined.

(** ** Registries that remove nothing *)






(** ** The fields of the result *)





(** ** The title slice *)

Lemma take_splice (t : JsString) (i n E : nat) :
  (i + n <= E)%nat ->
  take (E - n) (take i t ++ drop (i + n) t)
  = take i (take E t) ++ drop (i + n) (take E t).
Proof.
  intros H.
  rewrite take_take, Nat.min_l by lia.
  replace (drop (i + n) (take E t)) with (take (E - (i + n)) (drop (i + n) t)).
  2:{ rewrite take_drop_commute. f_equal. f_equal. lia. }
  destruct (decide (i <= length t)%nat) as [Hi|Hi].
  - rewrite take_app, take_take, length_take.
    replace (Nat.min (E - n) i) with i by lia.
    replace (E - n - Nat.min i (length t))%nat with (E - (i + n))%nat by lia.
    reflexivity.
  - rewrite (take_ge t i) by lia. rewrite (drop_ge t (i + n)) by lia.
    rewrite app_nil_r, take_nil, app_nil_r. apply take_ge. lia.
Qed.

(** X20: when a match result is removed and exempt from the title, starts
    at a position and ends at or before the end boundary, the boundary
    moves left by the length of the match and the title slice after the
    removal is the title slice before it with the matched span cut out. *)
Theorem exempt_removal_is_compensated
    (handler : Handler) (st : State) (m : MatchResult.t)
    (result' : Result) (matched' : MatchedMap) (index : Z) :
  call handler (title st) (result st) (matched st) = Ok (Some m, result', matched') ->
  MatchResult.remove m = true ->
  MatchResult.skipFromTitle m = true ->
  MatchResult.matchIndex m = Some index ->
  0 <= index ->
  index + len (MatchResult.rawMatch m) <= endOfTitle st ->
  let i := Z.to_nat index in
  let n := length (MatchResult.rawMatch m) in
  exists st',
    step handler st = Ok st'
    /\ endOfTitle st' = endOfTitle st - len (MatchResult.rawMatch m)
    /\ slice (title st') 0 (endOfTitle st')
       = take i (slice (title st) 0 (endOfTitle st))
           ++ drop (i + n) (slice (title st) 0 (endOfTitle st)).
Proof.
  intros Hcall Hrem Hskip Hindex Hidx Hend i n.
  pose proof (len_nonneg (MatchResult.rawMatch m)) as Hn.
  unfold step. rewrite Hcall. simpl. rewrite Hrem, Hskip, Hindex. simpl.
  eexists. split; [reflexivity|]. simpl.
  assert (He : (if index <? endOfTitle st
                then endOfTitle st - len (MatchResult.rawMatch m)
                else endOfTitle st)
               = endOfTitle st - len (MatchResult.rawMatch m)).
  { destruct (index <? endOfTitle st) eqn:E; [reflexivity|].
    apply Z.ltb_ge in E. lia. }
  rewrite He. split; [reflexivity|].
  rewrite !slice_prefix by lia.
  rewrite slice_from_suffix by lia.
  unfold len in *. rewrite Z2Nat.inj_add, Nat2Z.id by lia.
  rewrite Z2Nat.inj_sub, Nat2Z.id by lia.
  apply take_splice. unfold i, n. lia.
Qed.

Lemma exempt_removal_is_compensated_witness :
  let st := mkState (str "Movie Ep1 1080p") empty_object ∅ 10 in
  exists st',
    step Examples.episode st = Ok st'
    /\ endOfTitle st' = 7
    /\ slice (title st') 0 (endOfTitle st') = str "Movie  ".
Proof.
  intros st.
  destruct (exempt_removal_is_compensated Examples.episode st
              (MatchResult.mk (str "Ep1") (Some 6) true true)
              (mkObj (<[ str "episode" := VStr (str "Ep1") ]> ∅) Object_prototype)
              (<[ str "episode" := Matched.mk (str "Ep1") (Some 6) ]> ∅) 6)
    as (st' & Hstep & He & Hs).
  - vm_compute. reflexivity.
  - reflexivity.
  - reflexivity.
  - reflexivity.
  - lia.
  - vm_compute. discriminate.
  - exists st'. split; [exact Hstep|]. split; [rewrite He; reflexivity|].
    rewrite Hs. reflexivity.
Defined.

(** X21: after a match result that is not exempt from the title and starts
    at a non-zero position before the end boundary, the title slice is the
    text of the working title before the match, whether the match is removed
    or not. *)
Theorem title_is_the_text_before_the_match
    (handler : Handler) (st : State) (m : MatchResult.t)
    (result' : Result) (matched' : MatchedMap) (index : Z) :
  call handler (title st) (result st) (matched st) = Ok (Some m, result', matched') ->
  MatchResult.skipFromTitle m = false ->
  MatchResult.matchIndex m = Some index ->
  0 < index ->
  index < endOfTitle st ->
  exists st',
    step handler st = Ok st'
    /\ endOfTitle st' = index
    /\ slice (title st') 0 (endOfTitle st') = take (Z.to_nat index) (title st).
Proof.
  intros Hcall Hskip Hindex Hpos Hlt.
  unfold step. rewrite Hcall. simpl. rewrite Hskip, Hindex. simpl.
  assert (E0 : (index =? 0) = false) by (apply Z.eqb_neq; lia).
  apply Z.ltb_lt in Hlt. rewrite E0, Hlt. simpl. rewrite !andb_false_r.
  eexists. split; [reflexivity|]. simpl. split; [reflexivity|].
  rewrite slice_prefix by lia.
  destruct (MatchResult.remove m); [|reflexivity].
  rewrite slice_prefix by lia.
  rewrite slice_from_suffix by (pose proof (len_nonneg (MatchResult.rawMatch m)); lia).
  set (i := Z.to_nat index).
  destruct (decide (i <= length (title st))%nat) as [Hi|Hi].
  - apply take_app_length'. rewrite length_take. lia.
  - rewrite (take_ge (title st) i) by lia. rewrite drop_ge.
    + rewrite app_nil_r. apply take_ge. lia.
    + rewrite Z2Nat.inj_add by (pose proof (len_nonneg (MatchResult.rawMatch m)); lia).
      fold i. lia.
Qed.

Lemma title_is_the_text_before_the_match_witness :
  exists st',
    step Examples.year (init (str "Movie 2020 1080p")) = Ok st'
    /\ endOfTitle st' = 6
    /\ slice (title st') 0 (endOfTitle st') = str "Movie ".
Proof.
  destruct (title_is_the_text_before_the_match Examples.year
              (init (str "Movie 2020 1080p"))
              (MatchResult.mk (str "2020") (Some 6) false false)
              (mkObj (<[ str "year" := VStr (str "2020") ]> ∅) Object_prototype)
              (<[ str "year" := Matched.mk (str "2020") (Some 6) ]> ∅) 6)
    as (st' & Hstep & He & Hs).
  - vm_compute. reflexivity.
  - reflexivity.
  - reflexivity.
  - lia.
  - vm_compute. reflexivity.
  - exists st'. split; [exact Hstep|]. split; [exact He|].
    rewrite Hs. reflexivity.
Defined.

(** ** The end boundary as a minimum *)

Lemma step_lowest (handler : Handler) (st : State) (m : MatchResult.t) r' m' :
  call handler (title st) (result st) (matched st) = Ok (Some m, r', m') ->
  MatchResult.remove m && MatchResult.skipFromTitle m = false ->
  exists st',
    step handler st = Ok st'
    /\ endOfTitle st' = match cap m with
                        | Some i => Z.min i (endOfTitle st)
                        | None => endOfTitle st
                        end.
Proof.
  intros Hcall Hrs.
  destruct (step_ok _ _ _ _ _ Hcall) as (st' & Hstep & _).
  exists st'. split; [exact Hstep|].
  pose proof (step_endOfTitle _ _ _ _ _ _ Hcall Hstep) as H. unfold cap.
  destruct (MatchResult.matchIndex m) as [i|]; [|exact H].
  cbv zeta in H. rewrite H, Hrs. simpl.
  destruct (negb (MatchResult.skipFromTitle m) && negb (i =? 0)); simpl;
    [|reflexivity].
  destruct (i <? endOfTitle st) eqn:E.
  - apply Z.ltb_lt in E. lia.
  - apply Z.ltb_ge in E. lia.
Qed.

(** X18: as long as no match result is both removed and exempt from the
    title, the end boundary after the handlers is the least of the start
    indices of the match results that are neither exempt nor at index 0,
    and of the length of the normalized input. *)
Theorem boundary_is_the_earliest_match (handlers : list Handler) :
  forall st st',
    run handlers st = Ok st' ->
    Forall (fun o => MatchResult.remove o.2 && MatchResult.skipFromTitle o.2 = false)
           (outcomes handlers st) ->
    endOfTitle st' = lowest (endOfTitle st) (outcomes handlers st).
Proof.
  induction handlers as [|h hs IH]; intros st st' Hrun Hall.
  - simpl in Hrun. injection Hrun as <-. reflexivity.
  - simpl in Hrun, Hall. cbn [outcomes].
    destruct (call h (title st) (result st) (matched st))
      as [[[[m|] r] m']|e] eqn:Hcall.
    + destruct (step h st) as [st1|e] eqn:Hstep; [|discriminate].
      apply Forall_cons in Hall as [Hm Hall]. simpl in Hm.
      destruct (step_lowest _ _ _ _ _ Hcall Hm) as (st1' & Hstep' & He).
      rewrite Hstep in Hstep'. injection Hstep' as <-.
      simpl in Hrun. rewrite (IH st1 st' Hrun Hall).
      unfold lowest. simpl. now rewrite He.
    + rewrite (step_null _ _ _ _ Hcall) in *. simpl in Hrun.
      rewrite (IH _ st' Hrun Hall). reflexivity.
    + unfold step in Hrun. rewrite Hcall in Hrun. discriminate.
Qed.

Lemma boundary_is_the_earliest_match_witness :
  exists st',
    run [Examples.resolution; Examples.year] (init (str "Movie 2020 1080p")) = Ok st'
    /\ endOfTitle st' = 6.
Proof.
  assert (Hrun : run [Examples.resolution; Examples.year]
                   (init (str "Movie 2020 1080p"))
                 = Ok (mkState (str "Movie 2020 1080p")
                         (mkObj (<[ str "year" := VStr (str "2020") ]>
                                   (<[ str "resolution" := VStr (str "1080p") ]> ∅))
                                Object_prototype)
                         (<[ str "year" := Matched.mk (str "2020") (Some 6) ]>
                            (<[ str "resolution"
                                := Matched.mk (str "1080p") (Some 11) ]> ∅))
                         6))
    by (vm_compute; reflexivity).
  assert (Hout : outcomes [Examples.resolution; Examples.year]
                   (init (str "Movie 2020 1080p"))
                 = [ (16, MatchResult.mk (str "1080p") (Some 11) false false);
                     (11, MatchResult.mk (str "2020") (Some 6) false false) ])
    by (vm_compute; reflexivity).
  eexists. split; [exact Hrun|].
  rewrite (boundary_is_the_earliest_match _ _ _ Hrun).
  - rewrite Hout. reflexivity.
  - rewrite Hout. repeat constructor.
Defined.
